(** * DTOKit: the factory runtime and the exhaustive dispatcher

    A shallow embedding of [src/dtokit.ts].  The types of that file
    ([HasLiteralField], [DiscriminatorMap], ...) are erased by the
    compiler; what runs is [createDtoFactory] and [createDtoHandler], four
    one-line methods and a lookup-and-call.  Their meaning is the meaning
    of the JavaScript operators they are written with ([===], [typeof],
    [obj[key]], a call), so the development has two layers:

    - [JS]: the values of the language, a store of objects with prototype
      links, accessor properties and callable objects, and the operators
      as functions on them;
    - [DtoKit]: the two builders, line by line over [JS]. *)

From Stdlib Require Import ZArith String List Bool Lia.
From stdpp Require Import base option gmap strings list fin_maps pretty.

Local Open Scope string_scope.
Local Open Scope Z_scope.

(* ===================================================================== *)
(** ** The JavaScript fragment *)
(* ===================================================================== *)

Module JS.

(** Object identity: a location in the store. *)
Abbreviation loc := positive.

(** The language's values.  A Number is an IEEE-754 binary64, kept as its
    64-bit pattern; a String is kept as a Rocq string, one character per
    code unit; an object (array, function, plain record) is a reference. *)
Inductive value : Type :=
| VUndefined
| VNull
| VBool (b : bool)
| VNumber (bits : Z)
| VBigInt (z : Z)
| VString (str : string)
| VSymbol (id : positive)
| VObject (l : loc).

(** How a piece of user code (a getter, a handler) completes. *)
Inductive completion : Type :=
| Returns (v : value)
| Throws (e : value).

(** A property slot.  An accessor is abstracted to the completion of its
    getter (the same at every read); [None] is an accessor without getter. *)
Inductive property : Type :=
| DataProperty (v : value)
| AccessorProperty (get : option completion).

(** An object: own string-keyed properties, the [[Prototype]] link, and,
    for functions, the behaviour of [[Call]] on an argument list. *)
Record object : Type := Object {
  properties : gmap string property;
  prototype : option loc;
  call : option (list value → completion)
}.

(** The store: the heap and the realm's wrapper prototypes, which serve
    property reads on primitive values. *)
Record store : Type := Store {
  heap : gmap loc object;
  String_prototype : loc;
  Number_prototype : loc;
  Boolean_prototype : loc;
  BigInt_prototype : loc;
  Symbol_prototype : loc
}.

(** What is thrown: the engine's own TypeError, or a value thrown by user
    code. *)
Inductive exn : Type :=
| TypeError
| Thrown (v : value).

(** The outcome of running model code.  [Stuck] is not a JavaScript
    outcome: it marks a store no engine produces (a dangling reference, a
    cyclic prototype chain) or a conversion left out of the model. *)
Inductive result (A : Type) : Type :=
| Ret (a : A)
| Throw (e : exn)
| Stuck.

Arguments Ret {A} a.
Arguments Throw {A} e.
Arguments Stuck {A}.

#[export] Instance result_ret : MRet result := λ A a, Ret a.
#[export] Instance result_bind : MBind result := λ A B f m,
  match m with
  | Ret a => f a
  | Throw e => Throw e
  | Stuck => Stuck
  end.

(** *** Numbers *)

Definition is_NaN (x : Z) : bool :=
  (Z.land (Z.shiftr x 52) 2047 =? 2047) && negb (Z.land x (2 ^ 52 - 1) =? 0).

Definition is_zero (x : Z) : bool :=
  Z.land x (2 ^ 63 - 1) =? 0.

(** Number::equal: NaN differs from everything, the two zeros are equal. *)
Definition number_equal (x y : Z) : bool :=
  if is_NaN x || is_NaN y then false
  else if is_zero x && is_zero y then true
  else x =? y.

(** The binary64 pattern of a natural number below 2^53. *)
Definition number_of_N (n : N) : Z :=
  match n with
  | N0 => 0
  | Npos _ =>
      let e := Z.log2 (Z.of_N n) in
      Z.lor (Z.shiftl (e + 1023) 52) (Z.shiftl (Z.of_N n - 2 ^ e) (52 - e))
  end.

(** *** [x === y] *)

Definition strict_equals (x y : value) : bool :=
  match x, y with
  | VUndefined, VUndefined => true
  | VNull, VNull => true
  | VBool a, VBool b => Bool.eqb a b
  | VNumber a, VNumber b => number_equal a b
  | VBigInt a, VBigInt b => (a =? b)%Z
  | VString a, VString b => String.eqb a b
  | VSymbol a, VSymbol b => Pos.eqb a b
  | VObject a, VObject b => Pos.eqb a b
  | _, _ => false
  end.

(** *** [typeof v] *)

Definition typeof (s : store) (v : value) : result string :=
  match v with
  | VUndefined => Ret "undefined"
  | VNull => Ret "object"
  | VBool _ => Ret "boolean"
  | VNumber _ => Ret "number"
  | VBigInt _ => Ret "bigint"
  | VString _ => Ret "string"
  | VSymbol _ => Ret "symbol"
  | VObject l =>
      match heap s !! l with
      | Some o =>
          Ret (match call o with Some _ => "function" | None => "object" end)
      | None => Stuck
      end
  end.

(** *** [base[key]] *)

Definition read_property (p : property) : result value :=
  match p with
  | DataProperty v => Ret v
  | AccessorProperty None => Ret VUndefined
  | AccessorProperty (Some (Returns v)) => Ret v
  | AccessorProperty (Some (Throws e)) => Throw (Thrown e)
  end.

(** OrdinaryGet: the own property if there is one, else the prototype's,
    else [undefined].  One unit of fuel per object visited. *)
Fixpoint ordinary_get (fuel : nat) (h : gmap loc object) (l : loc) (k : string)
  : result value :=
  match fuel with
  | O => Stuck
  | S fuel' =>
      match h !! l with
      | None => Stuck
      | Some o =>
          match properties o !! k with
          | Some p => read_property p
          | None =>
              match prototype o with
              | None => Ret VUndefined
              | Some parent => ordinary_get fuel' h parent k
              end
          end
      end
  end.

(** A prototype chain never visits an object twice, so it is no longer
    than the heap is large ([chain_bounded] below). *)
Definition Get (s : store) (l : loc) (k : string) : result value :=
  ordinary_get (size (heap s)) (heap s) l k.

(** HasProperty ([key in obj]), with the same walk. *)
Fixpoint ordinary_has (fuel : nat) (h : gmap loc object) (l : loc) (k : string)
  : result bool :=
  match fuel with
  | O => Stuck
  | S fuel' =>
      match h !! l with
      | None => Stuck
      | Some o =>
          match properties o !! k with
          | Some _ => Ret true
          | None =>
              match prototype o with
              | None => Ret false
              | Some parent => ordinary_has fuel' h parent k
              end
          end
      end
  end.

Definition HasProperty (s : store) (l : loc) (k : string) : result bool :=
  ordinary_has (size (heap s)) (heap s) l k.

(** The own properties of a String value: ["length"] and the canonical
    indices below it. *)
Definition string_own_property (str k : string) : option value :=
  if String.eqb k "length"
  then Some (VNumber (number_of_N (N.of_nat (String.length str))))
  else
    match find (λ i : nat, String.eqb (pretty i) k) (seq 0 (String.length str)) with
    | Some i =>
        match String.get i str with
        | Some c => Some (VString (String c EmptyString))
        | None => None
        end
    | None => None
    end.

(** A property read with a string key on any base value: a TypeError on
    [null] and [undefined], the wrapper prototype for a primitive. *)
Definition get_property (s : store) (base : value) (k : string) : result value :=
  match base with
  | VUndefined | VNull => Throw TypeError
  | VObject l => Get s l k
  | VString str =>
      match string_own_property str k with
      | Some v => Ret v
      | None => Get s (String_prototype s) k
      end
  | VNumber _ => Get s (Number_prototype s) k
  | VBool _ => Get s (Boolean_prototype s) k
  | VBigInt _ => Get s (BigInt_prototype s) k
  | VSymbol _ => Get s (Symbol_prototype s) k
  end.

(** ToPropertyKey, for the values whose key is a fixed string.  A Number
    or BigInt key needs number printing, a Symbol keys another table and an
    object runs user code: those are left out. *)
Definition to_property_key (v : value) : result string :=
  match v with
  | VString str => Ret str
  | VUndefined => Ret "undefined"
  | VNull => Ret "null"
  | VBool true => Ret "true"
  | VBool false => Ret "false"
  | _ => Stuck
  end.

(** [v.length] of a String value. *)
Definition string_length (v : value) : Z :=
  match v with
  | VString str => Z.of_nat (String.length str)
  | _ => 0
  end.

(** *** Calls, with a log of what was called *)

Inductive event : Type :=
| Called (f : loc) (args : list value).

Definition traced (A : Type) : Type := (list event * result A)%type.

Definition lift {A} (r : result A) : traced A := ([], r).

#[export] Instance traced_ret : MRet traced := λ A a, ([], Ret a).
#[export] Instance traced_bind : MBind traced := λ A B f m,
  match m with
  | (t, Ret a) => let '(t', r) := f a in ((t ++ t')%list, r)
  | (t, Throw e) => (t, Throw e)
  | (t, Stuck) => (t, Stuck)
  end.

(** [f(args)]: a TypeError unless [f] is callable. *)
Definition call_function (s : store) (f : value) (args : list value) : traced value :=
  match f with
  | VObject l =>
      match heap s !! l with
      | Some o =>
          match call o with
          | Some body =>
              ([Called l args],
               match body args with
               | Returns v => Ret v
               | Throws e => Throw (Thrown e)
               end)
          | None => ([], Throw TypeError)
          end
      | None => ([], Stuck)
      end
  | _ => ([], Throw TypeError)
  end.

(** *** Stores an engine can produce *)

(** [chain h l n]: the prototype chain of [l] reaches [null] after [n]
    objects, all of them allocated. *)
Inductive chain (h : gmap loc object) : loc → nat → Prop :=
| chain_end l o :
    h !! l = Some o → prototype o = None → chain h l 1
| chain_link l o parent n :
    h !! l = Some o → prototype o = Some parent → chain h parent n →
    chain h l (S n).

Definition wf_value (s : store) (v : value) : Prop :=
  match v with
  | VObject l => is_Some (heap s !! l)
  | _ => True
  end.

(** The value a property can hand out. *)
Definition property_value (p : property) : value :=
  match p with
  | DataProperty v => v
  | AccessorProperty (Some (Returns v)) => v
  | AccessorProperty _ => VUndefined
  end.

Record wf_store (s : store) : Prop := {
  wf_chain : ∀ l, is_Some (heap s !! l) → ∃ n, chain (heap s) l n;
  wf_closed : ∀ l o k p,
    heap s !! l = Some o → properties o !! k = Some p →
    wf_value s (property_value p);
  wf_String : is_Some (heap s !! String_prototype s);
  wf_Number : is_Some (heap s !! Number_prototype s);
  wf_Boolean : is_Some (heap s !! Boolean_prototype s);
  wf_BigInt : is_Some (heap s !! BigInt_prototype s);
  wf_Symbol : is_Some (heap s !! Symbol_prototype s)
}.

(** The same conditions as a test. *)
Fixpoint chain_ends (fuel : nat) (h : gmap loc object) (l : loc) : bool :=
  match fuel with
  | O => false
  | S fuel' =>
      match h !! l with
      | None => false
      | Some o =>
          match prototype o with
          | None => true
          | Some parent => chain_ends fuel' h parent
          end
      end
  end.

Definition allocated (s : store) (l : loc) : bool :=
  match heap s !! l with Some _ => true | None => false end.

Definition wf_valueb (s : store) (v : value) : bool :=
  match v with
  | VObject l => allocated s l
  | _ => true
  end.

Definition wf_storeb (s : store) : bool :=
  forallb (λ lo : loc * object,
      chain_ends (size (heap s)) (heap s) lo.1
      && forallb (λ kp : string * property, wf_valueb s (property_value kp.2))
           (map_to_list (properties lo.2)))
    (map_to_list (heap s))
  && allocated s (String_prototype s)
  && allocated s (Number_prototype s)
  && allocated s (Boolean_prototype s)
  && allocated s (BigInt_prototype s)
  && allocated s (Symbol_prototype s).

End JS.

(* ===================================================================== *)
(** ** The program *)
(* ===================================================================== *)

Module DtoKit.
Import JS.

(** [interface DtoFactory]: the object [createDtoFactory] returns.  ([is]
    is a reserved word here, hence [is_].) *)
Record DtoFactory : Type := {
  field : string;
  parse : store → value → result value;
  is_ : store → value → value → result bool;
  getId : store → value → result value;
  isValid : store → value → result bool
}.

Section Factory.

(** The closure variable of the four methods. *)
Variable discriminatorField : string.

(** [isValid(raw)], dtokit.ts lines 453-464. *)
Definition factory_isValid (s : store) (raw : value) : result bool :=
  if strict_equals raw VNull || strict_equals raw VUndefined then Ret false
  else
    t ← typeof s raw;
    if negb (String.eqb t "object") then Ret false
    else
      value ← get_property s raw discriminatorField;
      tv ← typeof s value;
      Ret (String.eqb tv "string" && (0 <? string_length value)).

(** [parse(raw)], lines 434-439.  The source reaches [isValid] through
    [this]; [this_isValid] is what [this.isValid] denotes at the call. *)
Definition factory_parse (this_isValid : store → value → result bool)
    (s : store) (raw : value) : result value :=
  valid ← this_isValid s raw;
  if negb valid then Ret VNull
  else Ret raw.

(** [is(dto, id)], lines 441-445. *)
Definition factory_is (s : store) (dto id : value) : result bool :=
  v ← get_property s dto discriminatorField;
  Ret (strict_equals v id).

(** [getId(dto)], lines 447-451. *)
Definition factory_getId (s : store) (dto : value) : result value :=
  get_property s dto discriminatorField.

End Factory.

(** [createDtoFactory<Schemas>()(discriminatorField)], lines 417-467.  In
    a method call [factory.parse(raw)] on the object built here, [this] is
    that object and [this.isValid] the method defined beside [parse]. *)
Definition createDtoFactory (discriminatorField : string) : DtoFactory :=
  {| field := discriminatorField;
     parse := factory_parse (factory_isValid discriminatorField);
     is_ := factory_is discriminatorField;
     getId := factory_getId discriminatorField;
     isValid := factory_isValid discriminatorField |}.

(** [createDtoHandler<Schemas>()(discriminatorField, handlers)], lines
    556-585: the function it returns, applied to [dto]. *)
Definition createDtoHandler (discriminatorField : string) (handlers : value)
    (s : store) (dto : value) : traced value :=
  id ← lift (get_property s dto discriminatorField);
  handler ← lift (key ← to_property_key id; get_property s handlers key);
  call_function s handler [dto].

End DtoKit.

(* ===================================================================== *)
(** ** Sample stores *)
(* ===================================================================== *)

Module Samples.
Import JS DtoKit.

(** The realm: the prototypes every store starts with. *)
Definition Object_prototype : loc := 1%positive.
Definition Function_prototype : loc := 7%positive.
Definition Array_prototype : loc := 8%positive.
Definition Object_toString : loc := 9%positive.

Definition data (ps : list (string * value)) : gmap string property :=
  list_to_map (prod_map id DataProperty <$> ps).

(** [{k1: v1, ...}] *)
Definition record (ps : list (string * value)) : object :=
  Object (data ps) (Some Object_prototype) None.

(** [[v0, v1, ...]] *)
Definition array (items : list value) : object :=
  Object
    (data (("length", VNumber (number_of_N (N.of_nat (length items))))
           :: imap (λ i v, (pretty i, v)) items))
    (Some Array_prototype) None.

(** [function (...args) { body }] *)
Definition function (body : list value → completion) : object :=
  Object ∅ (Some Function_prototype) (Some body).

Definition realm : gmap loc object :=
  list_to_map
    [ (Object_prototype,
       Object (data [("toString", VObject Object_toString)]) None None);
      (2%positive, record []);
      (3%positive, record []);
      (4%positive, record []);
      (5%positive, record []);
      (6%positive, record []);
      (Function_prototype, record []);
      (Array_prototype, record []);
      (Object_toString, function (λ _, Returns (VString "[object Object]"))) ].

Definition world (objs : list (loc * object)) : store :=
  Store (list_to_map objs ∪ realm) 2 3 4 5 6.

(** 123 as a binary64. *)
Definition n123 : value := VNumber (number_of_N 123).

Definition fn_a : loc := 120%positive.
Definition fn_b : loc := 121%positive.
Definition the_handlers : loc := 122%positive.

Definition w : store :=
  world
    [ (100%positive, record [("id", VString "")]);
      (101%positive, record [("id", VString " ")]);
      (102%positive, record [("id", n123)]);
      (103%positive, record [("id", VNull)]);
      (104%positive, record [("id", VObject 110)]);
      (105%positive, record [("id", VObject 111)]);
      (106%positive, record [("id", VBool true)]);
      (107%positive, record [("", VString "a")]);
      (108%positive,
       Object {[ "id" := AccessorProperty (Some (Throws (VString "boom"))) ]}
         (Some Object_prototype) None);
      (109%positive, record [("id", VString "a"); ("payload", VString "hi")]);
      (110%positive, array []);
      (111%positive, record []);
      (112%positive, record [("id", VString "no_such_schema")]);
      (113%positive, record [("payload", VString "hi")]);
      (114%positive,
       Object (data [("id", VString "a")]) (Some Function_prototype)
         (Some (λ _, Returns VUndefined)));
      (115%positive, Object ∅ (Some 109%positive) None);
      (fn_a, function (λ args, Returns (VString "from a")));
      (fn_b, function (λ args, Returns (VString "from b")));
      (the_handlers, record [("a", VObject fn_a); ("b", VObject fn_b)]) ].

End Samples.

(* ===================================================================== *)
(** ** The derived types *)
(* ===================================================================== *)

(** The type aliases of lines 60-211 and 494-498 are programs the type
    checker runs: conditional types ([A extends B ? X : Y]), indexed access
    ([T[Field]], [keyof T]) and a mapped type with key remapping.  They are
    evaluated here on the types a generated schema set is made of: an object
    type with required, string-named properties, each of a type that is a
    union of [string], string literals, [number], [boolean], [null],
    [undefined] and object types.  ([any], [unknown], index signatures and
    template literal types are outside that fragment; an optional property
    [p?: X] is the property [p: X | undefined].) *)
Module Types.

Inductive atom : Type :=
| AString
| ALiteral (s : string)
| ANumber
| ABoolean
| ANull
| AUndefined
| AObject.

(** A union of atoms; the empty union is [never]. *)
Abbreviation ty := (list atom).
Definition never : ty := [].

(** An object type, and a schema set: an object type of object types. *)
Abbreviation shape := (gmap string ty).
Abbreviation schemas := (gmap string shape).

(** [U extends string]: every constituent of [U] is assignable to
    [string]. *)
Definition extends_string (u : ty) : bool :=
  forallb (λ a, match a with AString | ALiteral _ => true | _ => false end) u.

(** [string extends U]: [string] is assignable to a constituent of [U]. *)
Definition string_extends (u : ty) : bool :=
  existsb (λ a, match a with AString => true | _ => false end) u.

(** The string literals among the constituents of [U]: the property names
    [U] stands for in an [as] clause. *)
Definition literals (u : ty) : list string :=
  omap (λ a, match a with ALiteral s => Some s | _ => None end) u.

(** [HasLiteralField<T, Field>], lines 60-66; [None] is [never]. *)
Definition HasLiteralField (T : shape) (Field : string) : option shape :=
  match T !! Field with
  | Some u =>
      if extends_string u then
        if string_extends u then None
        else Some T
      else None
  | None => None
  end.

(** [ExtractFieldValue<T, Field>], lines 84-88. *)
Definition ExtractFieldValue (T : shape) (Field : string) : ty :=
  match T !! Field with
  | Some u => if extends_string u then u else never
  | None => never
  end.

(** [DiscriminatedKey<Schemas, Field>], lines 110-114: the union of the
    names [K] whose [HasLiteralField<Schemas[K], Field>] is not [never]. *)
Definition DiscriminatedKey (Schemas : schemas) (Field : string) : list string :=
  omap (λ KT : string * shape,
      match HasLiteralField KT.2 Field with
      | None => None
      | Some _ => Some KT.1
      end)
    (map_to_list Schemas).

(** One member of a mapped type: the property [v] receives [T].  Keys that
    remap to one name share the property, whose type is the union of what
    they bring. *)
Definition add_member (v : string) (T : shape)
    (m : gmap string (list shape)) : gmap string (list shape) :=
  <[v := T :: default [] (m !! v)]> m.

(** [DiscriminatorMap<Schemas, Field>], lines 139-144: for every [K] of
    [DiscriminatedKey], a property [Schemas[K]] under each name of
    [ExtractFieldValue<Schemas[K], Field>].  A property's type is a union
    of object types, kept as a list. *)
Definition DiscriminatorMap (Schemas : schemas) (Field : string)
  : gmap string (list shape) :=
  foldr (λ K m,
      match Schemas !! K with
      | Some T =>
          foldr (λ v m', add_member v T m') m
            (literals (ExtractFieldValue T Field))
      | None => m
      end)
    ∅ (DiscriminatedKey Schemas Field).

(** [ValueOf<T>], line 150. *)
Definition ValueOf (m : gmap string (list shape)) : list shape :=
  mjoin (map_to_list m).*2.

(** [SafeIndex<T, K>], line 157. *)
Definition SafeIndex (m : gmap string (list shape)) (K : string) : list shape :=
  match m !! K with
  | Some T => T
  | None => []
  end.

(** [DiscriminatorId<Schemas, Field>], lines 179-183. *)
Definition DiscriminatorId (Schemas : schemas) (Field : string) : gset string :=
  dom (DiscriminatorMap Schemas Field).

(** [AnyDto<Schemas, Field>], lines 209-211. *)
Definition AnyDto (Schemas : schemas) (Field : string) : list shape :=
  ValueOf (DiscriminatorMap Schemas Field).

(** [DtoHandlers<Schemas, Field, R>], lines 494-498, read as a condition
    on a value: under every name of [DiscriminatorId] it holds a
    function. *)
Definition is_DtoHandlers (s : JS.store) (handlers : JS.value)
    (Schemas : schemas) (Field : string) : Prop :=
  ∀ K, K ∈ DiscriminatorId Schemas Field →
    ∃ h o body,
      JS.get_property s handlers K = JS.Ret (JS.VObject h)
      ∧ JS.heap s !! h = Some o
      ∧ JS.call o = Some body.

(** The schema set of the repository's tests. *)
Definition TestSchemas : schemas :=
  list_to_map
    [ ("MessageA",
       list_to_map [("id", [ALiteral "message_a"]); ("payload", [AString])]);
      ("MessageB",
       list_to_map [("id", [ALiteral "message_b"]); ("data", [AObject])]);
      ("MessageC",
       list_to_map [("id", [ALiteral "message_c"]); ("items", [AObject])]);
      ("NoDiscriminator",
       list_to_map [("name", [AString]); ("value", [ANumber])]);
      ("GenericString",
       list_to_map [("id", [AString]); ("content", [AString])]);
      ("TypedMessage",
       list_to_map [("type", [ALiteral "typed_msg"]); ("body", [AString])]);
      ("DualDiscriminator",
       list_to_map [("id", [ALiteral "dual"]); ("type", [ALiteral "also_typed"]);
                    ("mixed", [ABoolean])]) ].

End Types.

(* ===================================================================== *)
(** ** Stores compared, and more samples *)
(* ===================================================================== *)

(** Two stores look the same to a factory for [f]: the same realm, the
    same objects, and for each object the same property [f], the same
    prototype and the same answer to "is it a function".  Every other
    property may differ. *)
Definition same_view (f : string) (s s' : JS.store) : Prop :=
  JS.String_prototype s = JS.String_prototype s'
  ∧ JS.Number_prototype s = JS.Number_prototype s'
  ∧ JS.Boolean_prototype s = JS.Boolean_prototype s'
  ∧ JS.BigInt_prototype s = JS.BigInt_prototype s'
  ∧ JS.Symbol_prototype s = JS.Symbol_prototype s'
  ∧ ∀ l,
      match JS.heap s !! l, JS.heap s' !! l with
      | Some o, Some o' =>
          JS.properties o !! f = JS.properties o' !! f
          ∧ JS.prototype o = JS.prototype o'
          ∧ (is_Some (JS.call o) ↔ is_Some (JS.call o'))
      | None, None => True
      | _, _ => False
      end.

(** The same conditions as a test over the objects of both stores, for
    stores whose property [f] is a string or absent. *)
Definition same_viewb (f : string) (s s' : JS.store) : bool :=
  bool_decide (JS.String_prototype s = JS.String_prototype s')
  && bool_decide (JS.Number_prototype s = JS.Number_prototype s')
  && bool_decide (JS.Boolean_prototype s = JS.Boolean_prototype s')
  && bool_decide (JS.BigInt_prototype s = JS.BigInt_prototype s')
  && bool_decide (JS.Symbol_prototype s = JS.Symbol_prototype s')
  && forallb (λ l : positive,
       match JS.heap s !! l, JS.heap s' !! l with
       | Some o, Some o' =>
           match JS.properties o !! f, JS.properties o' !! f with
           | Some (JS.DataProperty (JS.VString a)),
             Some (JS.DataProperty (JS.VString b)) => String.eqb a b
           | None, None => true
           | _, _ => false
           end
           && bool_decide (JS.prototype o = JS.prototype o')
           && match JS.call o, JS.call o' with
              | Some _, Some _ | None, None => true
              | _, _ => false
              end
       | _, _ => false
       end)
     ((map_to_list (JS.heap s)).*1 ++ (map_to_list (JS.heap s')).*1).

Module MoreSamples.
Import JS DtoKit Samples.

(** A store where a dto is named after an inherited property, and a
    handler map that holds no such key. *)
Definition w_inherited : store :=
  world
    [ (200%positive, record [("id", VString "toString")]);
      (201%positive, record [("id", VString "a")]);
      (202%positive, record [("type", VString "typed_msg"); ("body", VString "hello")]);
      (fn_a, function (λ args, Returns (VString "from a")));
      (the_handlers, record [("a", VObject fn_a)]) ].

(** [{id: "a", payload: "hi"}] and the same object with another payload
    and one more property. *)
Definition w_before : store :=
  world [ (300%positive, record [("id", VString "a"); ("payload", VString "hi")]) ].

Definition w_after : store :=
  world [ (300%positive,
           record [("id", VString "a"); ("payload", VNull);
                   ("extra", VString "preserved")]) ].

(** Handlers for the four discriminator values of the tests' schemas. *)
Definition w_messages : store :=
  world
    [ (400%positive, record [("id", VString "message_b"); ("data", VObject 401)]);
      (401%positive, record [("value", n123); ("nested", VBool true)]);
      (410%positive, function (λ args, Returns (VString "A")));
      (411%positive, function (λ args, Returns (VString "B")));
      (412%positive, function (λ args, Returns (VString "C")));
      (413%positive, function (λ args, Returns (VString "D")));
      (420%positive,
       record [("message_a", VObject 410); ("message_b", VObject 411);
               ("message_c", VObject 412); ("dual", VObject 413)]) ].

End MoreSamples.

(* ===================================================================== *)
(** ** Facts about the language layer *)
(* ===================================================================== *)

Import JS DtoKit.

Ltac unfold_factory :=
  cbn [createDtoFactory isValid parse is_ getId field] in *;
  unfold factory_parse, factory_is, factory_getId, factory_isValid in *.

(** The operators on a few values: an array is of kind ["object"], a
    function is not; NaN equals nothing, the two zeros are equal; a string
    has a length and indexed characters. *)
Example typeof_samples :
  typeof Samples.w (VObject 110) = Ret "object"
  ∧ typeof Samples.w (VObject Samples.fn_a) = Ret "function"
  ∧ typeof Samples.w VNull = Ret "object"
  ∧ typeof Samples.w (VObject 999) = Stuck.
Proof. vm_compute. repeat split. Qed.

Example strict_equals_samples :
  strict_equals (VNumber 0x7FF8000000000000) (VNumber 0x7FF8000000000000) = false
  ∧ strict_equals (VNumber 0) (VNumber 0x8000000000000000) = true
  ∧ strict_equals (VNumber (number_of_N 3)) (VNumber 0x4008000000000000) = true
  ∧ strict_equals (VObject 100) (VObject 100) = true
  ∧ strict_equals (VObject 100) (VObject 101) = false
  ∧ strict_equals VUndefined VNull = false
  ∧ strict_equals (VString "1") (VNumber (number_of_N 1)) = false.
Proof. vm_compute. repeat split. Qed.

Example get_property_samples :
  get_property Samples.w (VString "abc") "length" = Ret (VNumber (number_of_N 3))
  ∧ get_property Samples.w (VString "abc") "1" = Ret (VString "b")
  ∧ get_property Samples.w (VString "abc") "01" = Ret VUndefined
  ∧ get_property Samples.w (VObject 113) "toString"
    = Ret (VObject Samples.Object_toString)
  ∧ get_property Samples.w (VObject 115) "id" = Ret (VString "a")
  ∧ get_property Samples.w VNull "id" = Throw TypeError.
Proof. vm_compute. repeat split. Qed.

Lemma strict_equals_string (a b : string) :
  strict_equals (VString a) (VString b) = true ↔ a = b.
Proof. cbn. apply String.eqb_eq. Qed.

Lemma strict_equals_null (v : value) :
  strict_equals v VNull = true ↔ v = VNull.
Proof. destruct v; cbn; split; congruence. Qed.

Lemma strict_equals_undefined (v : value) :
  strict_equals v VUndefined = true ↔ v = VUndefined.
Proof. destruct v; cbn; split; congruence. Qed.

Lemma typeof_string (s : store) (v : value) :
  typeof s v = Ret "string" ↔ ∃ str, v = VString str.
Proof.
  split.
  - destruct v; cbn; try discriminate; eauto.
    destruct (heap s !! l) as [o|]; [|discriminate].
    destruct (call o); discriminate.
  - intros [str ->]. reflexivity.
Qed.

Lemma typeof_object (s : store) (v : value) :
  typeof s v = Ret "object" ↔
  v = VNull ∨ ∃ l o, v = VObject l ∧ heap s !! l = Some o ∧ call o = None.
Proof.
  split.
  - destruct v; cbn; try discriminate; eauto.
    destruct (heap s !! l) as [o|] eqn:Hl; [|discriminate].
    destruct (call o) eqn:Hc; [discriminate|]. intros _. right. eauto.
  - intros [-> | (l & o & -> & Hl & Hc)]; cbn; [done|].
    by rewrite Hl, Hc.
Qed.

Lemma string_length_pos (str : string) :
  (0 <? string_length (VString str)) = true ↔ str ≠ "".
Proof.
  destruct str as [|c str]; cbn [string_length String.length].
  - split; [discriminate | congruence].
  - split; [discriminate | intros _; apply Z.ltb_lt; lia].
Qed.

(** A read that does not get stuck started at an allocated object. *)
Lemma ordinary_get_allocated fuel h l k :
  ordinary_get fuel h l k ≠ Stuck → is_Some (h !! l).
Proof.
  destruct fuel; cbn; [done|].
  destruct (h !! l); [eauto | done].
Qed.

Lemma ordinary_has_get fuel h l k :
  ordinary_has fuel h l k = Ret false → ordinary_get fuel h l k = Ret VUndefined.
Proof.
  revert l. induction fuel as [|fuel IH]; intros l; cbn; [done|].
  destruct (h !! l) as [o|]; [|done].
  destruct (properties o !! k); [done|].
  destruct (prototype o); [apply IH | done].
Qed.

Lemma HasProperty_false_Get s l k :
  HasProperty s l k = Ret false → Get s l k = Ret VUndefined.
Proof. apply ordinary_has_get. Qed.

Lemma get_property_object_allocated s l k :
  get_property s (VObject l) k ≠ Stuck → is_Some (heap s !! l).
Proof. apply ordinary_get_allocated. Qed.

Lemma typeof_allocated s l :
  is_Some (heap s !! l) →
  typeof s (VObject l) = Ret "object" ∨ typeof s (VObject l) = Ret "function".
Proof.
  intros [o Ho]. cbn. rewrite Ho. destruct (call o); eauto.
Qed.

(** [isValid], case by case. *)
Lemma isValid_unfold f s raw :
  isValid (createDtoFactory f) s raw =
  match raw with
  | VObject l =>
      match typeof s raw with
      | Ret t =>
          if String.eqb t "object" then
            match get_property s raw f with
            | Ret v =>
                match typeof s v with
                | Ret tv => Ret (String.eqb tv "string" && (0 <? string_length v))
                | Throw e => Throw e
                | Stuck => Stuck
                end
            | Throw e => Throw e
            | Stuck => Stuck
            end
          else Ret false
      | Throw e => Throw e
      | Stuck => Stuck
      end
  | _ => Ret false
  end.
Proof.
  unfold_factory. destruct raw; try reflexivity.
  cbn. destruct (heap s !! l) as [o|]; [|reflexivity].
  cbn. destruct (call o); cbn; [reflexivity|].
  destruct (Get s l f); cbn; try reflexivity.
Qed.

Lemma parse_unfold f s raw :
  parse (createDtoFactory f) s raw =
  match isValid (createDtoFactory f) s raw with
  | Ret true => Ret raw
  | Ret false => Ret VNull
  | Throw e => Throw e
  | Stuck => Stuck
  end.
Proof.
  cbn [createDtoFactory isValid parse]. unfold factory_parse.
  destruct (factory_isValid f s raw) as [[]| |]; reflexivity.
Qed.

(* ===================================================================== *)
(** ** The factory: validation *)
(* ===================================================================== *)

Lemma isValid_true_iff f s raw :
  isValid (createDtoFactory f) s raw = Ret true ↔
  raw ≠ VNull ∧ raw ≠ VUndefined ∧ typeof s raw = Ret "object" ∧
  ∃ str, get_property s raw f = Ret (VString str) ∧ (0 < String.length str)%nat.
Proof.
  rewrite isValid_unfold. split.
  - destruct raw; try discriminate.
    destruct (typeof s (VObject l)) as [t| |] eqn:Ht; try discriminate.
    destruct (String.eqb t "object") eqn:Et; [|discriminate].
    apply String.eqb_eq in Et as ->.
    destruct (get_property s (VObject l) f) as [v| |]; try discriminate.
    destruct (typeof s v) as [tv| |] eqn:Htv; try discriminate.
    intros [= [Es Hlen]%andb_prop].
    apply String.eqb_eq in Es as ->.
    apply typeof_string in Htv as [str ->].
    repeat split; try done.
    exists str. split; [done|].
    apply Z.ltb_lt in Hlen. cbn in Hlen. lia.
  - intros (Hnull & Hundef & Ht & str & Hget & Hlen).
    apply typeof_object in Ht as [-> | (l & o & -> & Hl & Hc)]; [done|].
    cbn [typeof]. rewrite Hl, Hc. cbn [String.eqb Ascii.eqb Bool.eqb].
    rewrite Hget. cbn [typeof String.eqb Ascii.eqb Bool.eqb andb string_length].
    f_equal. apply Z.ltb_lt. lia.
Qed.

Lemma isValid_false_non_string f s raw v t :
  get_property s raw f = Ret v → typeof s v = Ret t → t ≠ "string" →
  isValid (createDtoFactory f) s raw = Ret false.
Proof.
  intros Hget Ht Hne. rewrite isValid_unfold.
  destruct raw; try reflexivity.
  destruct (typeof_allocated s l) as [-> | ->].
  { apply get_property_object_allocated with f. by rewrite Hget. }
  2: reflexivity.
  cbn [String.eqb Ascii.eqb Bool.eqb]. rewrite Hget, Ht.
  apply String.eqb_neq in Hne. by rewrite Hne.
Qed.

Lemma isValid_false_empty f s raw :
  get_property s raw f = Ret (VString "") →
  isValid (createDtoFactory f) s raw = Ret false.
Proof.
  intros Hget. rewrite isValid_unfold.
  destruct raw; try reflexivity.
  destruct (typeof_allocated s l) as [-> | ->].
  { apply get_property_object_allocated with f. by rewrite Hget. }
  2: reflexivity.
  cbn [String.eqb Ascii.eqb Bool.eqb]. by rewrite Hget.
Qed.

(** C1.  [isValid(raw)] is [true] exactly when [raw] is neither [null]
    nor [undefined], [typeof raw] is ["object"] (so neither a primitive
    nor a function) and [raw[field]] is a string of length above zero.
    An empty discriminator gives [false], a blank one ([" "]) gives [true]
    (nothing is trimmed), and a discriminator that is not a string (a
    number, [null], an array, an object, a boolean) gives [false]. *)
Theorem isValid_spec (f : string) (s : store) (raw : value) :
  (isValid (createDtoFactory f) s raw = Ret true ↔
     raw ≠ VNull ∧ raw ≠ VUndefined ∧ typeof s raw = Ret "object" ∧
     ∃ str, get_property s raw f = Ret (VString str)
            ∧ (0 < String.length str)%nat)
  ∧ (get_property s raw f = Ret (VString "") →
     isValid (createDtoFactory f) s raw = Ret false)
  ∧ (raw ≠ VNull → typeof s raw = Ret "object" →
     get_property s raw f = Ret (VString " ") →
     isValid (createDtoFactory f) s raw = Ret true)
  ∧ (∀ v t, get_property s raw f = Ret v → typeof s v = Ret t →
     t ≠ "string" → isValid (createDtoFactory f) s raw = Ret false).
Proof.
  split; [apply isValid_true_iff|].
  split; [apply isValid_false_empty|].
  split.
  - intros Hnull Ht Hget. apply isValid_true_iff.
    repeat split; try done.
    + intros ->. discriminate.
    + exists " ". split; [done | cbn; lia].
  - intros v t. apply isValid_false_non_string.
Qed.

(** The boundary cases of C1 on a concrete store: [{id: ""}], [{id: " "}],
    [{id: 123}], [{id: null}], [{id: []}], [{id: {}}], [{id: true}], and
    the inputs that are not objects. *)
Example isValid_boundaries :
  let F := createDtoFactory "id" in
  isValid F Samples.w (VObject 100) = Ret false
  ∧ isValid F Samples.w (VObject 101) = Ret true
  ∧ isValid F Samples.w (VObject 102) = Ret false
  ∧ isValid F Samples.w (VObject 103) = Ret false
  ∧ isValid F Samples.w (VObject 104) = Ret false
  ∧ isValid F Samples.w (VObject 105) = Ret false
  ∧ isValid F Samples.w (VObject 106) = Ret false
  ∧ isValid F Samples.w VNull = Ret false
  ∧ isValid F Samples.w VUndefined = Ret false
  ∧ isValid F Samples.w (VString "string") = Ret false
  ∧ isValid F Samples.w (VNumber (number_of_N 42)) = Ret false
  ∧ isValid F Samples.w (VBool true) = Ret false
  ∧ isValid F Samples.w (VObject 114) = Ret false.
Proof. vm_compute. repeat split. Qed.

Lemma isValid_spec_witness :
  isValid (createDtoFactory "id") Samples.w (VObject 101) = Ret true
  ∧ isValid (createDtoFactory "id") Samples.w (VObject 100) = Ret false
  ∧ isValid (createDtoFactory "id") Samples.w (VObject 102) = Ret false.
Proof.
  pose proof (isValid_spec "id" Samples.w (VObject 101)) as (_ & _ & Hblank & _).
  pose proof (isValid_spec "id" Samples.w (VObject 100)) as (_ & Hempty & _).
  pose proof (isValid_spec "id" Samples.w (VObject 102)) as (_ & _ & _ & Hnum).
  split; [|split].
  - apply Hblank; [discriminate | vm_compute; reflexivity | vm_compute; reflexivity].
  - apply Hempty. vm_compute. reflexivity.
  - apply (Hnum Samples.n123 "number");
      [vm_compute; reflexivity | reflexivity | discriminate].
Defined.

(** C2.  [isValid(raw)] is [true] exactly when [parse(raw)] is a value
    other than [null], and [false] exactly when [parse(raw)] is [null];
    when one of the two throws, the other throws the same. *)
Theorem parse_agrees_with_isValid (f : string) (s : store) (raw : value) :
  (isValid (createDtoFactory f) s raw = Ret true ↔
     ∃ v, parse (createDtoFactory f) s raw = Ret v ∧ v ≠ VNull)
  ∧ (isValid (createDtoFactory f) s raw = Ret false ↔
     parse (createDtoFactory f) s raw = Ret VNull)
  ∧ (∀ e, isValid (createDtoFactory f) s raw = Throw e ↔
     parse (createDtoFactory f) s raw = Throw e).
Proof.
  rewrite parse_unfold.
  destruct (isValid (createDtoFactory f) s raw) as [[]| |] eqn:Hv.
  - apply isValid_true_iff in Hv as (Hnull & _).
    split; [|split].
    + split; [intros _; by exists raw | done].
    + split; [discriminate | intros [= ->]; done].
    + intros e. split; discriminate.
  - split; [|split].
    + split; [discriminate | intros (v & [= <-] & Hne); done].
    + done.
    + intros e. split; discriminate.
  - split; [|split].
    + split; [discriminate | intros (v & [=] & _)].
    + split; discriminate.
    + intros e'. split; intros [= ->]; reflexivity.
  - split; [|split].
    + split; [discriminate | intros (v & [=] & _)].
    + split; discriminate.
    + intros e'. split; discriminate.
Qed.

(** C2 on a concrete store: a valid object, an invalid one, [null]. *)
Example parse_agrees_samples :
  let F := createDtoFactory "id" in
  (isValid F Samples.w (VObject 109), parse F Samples.w (VObject 109))
    = (Ret true, Ret (VObject 109))
  ∧ (isValid F Samples.w (VObject 113), parse F Samples.w (VObject 113))
    = (Ret false, Ret VNull)
  ∧ (isValid F Samples.w VNull, parse F Samples.w VNull)
    = (Ret false, Ret VNull).
Proof. vm_compute. repeat split. Qed.

(** C3.  On a valid input [parse(raw)] is [raw] itself: for an object,
    the same location in the store, which [parse] only reads. *)
Theorem parse_returns_input (f : string) (s : store) (raw : value) :
  isValid (createDtoFactory f) s raw = Ret true →
  parse (createDtoFactory f) s raw = Ret raw.
Proof. intros Hv. rewrite parse_unfold. by rewrite Hv. Qed.

Lemma parse_returns_input_witness :
  parse (createDtoFactory "id") Samples.w (VObject 109) = Ret (VObject 109).
Proof.
  apply (parse_returns_input "id" Samples.w (VObject 109)).
  vm_compute. reflexivity.
Defined.

(* ===================================================================== *)
(** ** The factory: narrowing and the discriminator value *)
(* ===================================================================== *)

Lemma is_unfold f s dto id :
  is_ (createDtoFactory f) s dto id =
  match get_property s dto f with
  | Ret v => Ret (strict_equals v id)
  | Throw e => Throw e
  | Stuck => Stuck
  end.
Proof. unfold_factory. by destruct (get_property s dto f). Qed.

(** C5.  [is(dto, value)] is the strict equality of [dto[field]] and
    [value]: with ["X"] in the discriminator field, [is(dto, "X")] is
    [true] and [is(dto, "Y")] is [false] for every other string ["Y"]. *)
Theorem is_compares_discriminator (f : string) (s : store) (dto : value) :
  (∀ v id, get_property s dto f = Ret v →
     is_ (createDtoFactory f) s dto id = Ret (strict_equals v id))
  ∧ (∀ X, get_property s dto f = Ret (VString X) →
     is_ (createDtoFactory f) s dto (VString X) = Ret true
     ∧ ∀ Y, Y ≠ X → is_ (createDtoFactory f) s dto (VString Y) = Ret false).
Proof.
  split.
  - intros v id Hget. by rewrite is_unfold, Hget.
  - intros X Hget. split.
    + rewrite is_unfold, Hget. f_equal. by apply strict_equals_string.
    + intros Y HY. rewrite is_unfold, Hget. f_equal.
      cbn. apply String.eqb_neq. congruence.
Qed.

Lemma is_compares_discriminator_witness :
  is_ (createDtoFactory "id") Samples.w (VObject 109) (VString "a") = Ret true
  ∧ is_ (createDtoFactory "id") Samples.w (VObject 109) (VString "b") = Ret false.
Proof.
  pose proof (is_compares_discriminator "id" Samples.w (VObject 109)) as [_ H].
  destruct (H "a") as [Hsame Hother]; [vm_compute; reflexivity|].
  split; [exact Hsame | apply Hother; discriminate].
Defined.

(** C6.  For a valid dto [getId(dto)] is [dto[field]] as read, a string,
    with nothing checked and nothing changed. *)
Theorem getId_returns_discriminator (f : string) (s : store) (dto : value) :
  isValid (createDtoFactory f) s dto = Ret true →
  ∃ str, get_property s dto f = Ret (VString str)
         ∧ getId (createDtoFactory f) s dto = Ret (VString str).
Proof.
  intros (_ & _ & _ & str & Hget & _)%isValid_true_iff.
  exists str. split; [done|]. unfold_factory. done.
Qed.

Lemma getId_returns_discriminator_witness :
  ∃ str, get_property Samples.w (VObject 109) "id" = Ret (VString str)
         ∧ getId (createDtoFactory "id") Samples.w (VObject 109) = Ret (VString str).
Proof.
  apply (getId_returns_discriminator "id" Samples.w (VObject 109)).
  vm_compute. reflexivity.
Defined.

Example getId_sample :
  getId (createDtoFactory "id") Samples.w (VObject 109) = Ret (VString "a").
Proof. vm_compute. reflexivity. Qed.

(** C9.  No set of known discriminator values exists at run time: the
    factory is built from the field name alone, and an object whose
    discriminator field reads as any non-empty string is valid and is
    what [parse] returns. *)
Theorem any_nonempty_discriminator_is_valid
    (f : string) (s : store) (l : loc) (str : string) :
  typeof s (VObject l) = Ret "object" →
  get_property s (VObject l) f = Ret (VString str) →
  str ≠ "" →
  isValid (createDtoFactory f) s (VObject l) = Ret true
  ∧ parse (createDtoFactory f) s (VObject l) = Ret (VObject l).
Proof.
  intros Ht Hget Hne.
  assert (isValid (createDtoFactory f) s (VObject l) = Ret true) as Hv.
  { apply isValid_true_iff. repeat split; try done.
    exists str. split; [done|]. destruct str; [done | cbn; lia]. }
  split; [done | by rewrite parse_unfold, Hv].
Qed.

Lemma any_nonempty_discriminator_is_valid_witness :
  isValid (createDtoFactory "id") Samples.w (VObject 112) = Ret true
  ∧ parse (createDtoFactory "id") Samples.w (VObject 112) = Ret (VObject 112).
Proof.
  apply (any_nonempty_discriminator_is_valid "id" Samples.w 112 "no_such_schema").
  - vm_compute. reflexivity.
  - vm_compute. reflexivity.
  - discriminate.
Defined.

(** C10.  An object without the discriminator field, own or inherited,
    reads [undefined] there, and [is(dto, id)] returns [false] (it does
    not throw) for every [id] other than [undefined], so for every
    string. *)
Theorem is_false_without_field (f : string) (s : store) (l : loc) :
  HasProperty s l f = Ret false →
  get_property s (VObject l) f = Ret VUndefined
  ∧ (∀ id, id ≠ VUndefined →
       is_ (createDtoFactory f) s (VObject l) id = Ret false)
  ∧ (∀ str, is_ (createDtoFactory f) s (VObject l) (VString str) = Ret false).
Proof.
  intros Hget%HasProperty_false_Get.
  split; [done|]. split.
  - intros id Hid. rewrite is_unfold. cbn [get_property]. rewrite Hget.
    f_equal. by destruct id.
  - intros str. rewrite is_unfold. cbn [get_property]. by rewrite Hget.
Qed.

Lemma is_false_without_field_witness :
  get_property Samples.w (VObject 113) "id" = Ret VUndefined
  ∧ (∀ id, id ≠ VUndefined →
       is_ (createDtoFactory "id") Samples.w (VObject 113) id = Ret false)
  ∧ (∀ str, is_ (createDtoFactory "id") Samples.w (VObject 113) (VString str)
            = Ret false).
Proof.
  apply (is_false_without_field "id" Samples.w 113).
  vm_compute. reflexivity.
Defined.

(* ===================================================================== *)
(** ** Property reads terminate: the fuel is enough *)
(* ===================================================================== *)

Lemma chain_allocated h l n : chain h l n → is_Some (h !! l).
Proof. destruct 1; eauto. Qed.

Lemma chain_deterministic h l n m : chain h l n → chain h l m → n = m.
Proof.
  intros Hn. revert m. induction Hn as [l o Hl Hp | l o parent n Hl Hp _ IH];
    intros m Hm; destruct Hm as [l o' Hl' Hp' | l o' parent' m Hl' Hp' Hm];
    simplify_eq; try done.
  f_equal. by apply IH.
Qed.

(** Either a chain avoids [l], and is a chain of the heap without [l], or
    it passes through [l], and the rest of it is the chain of [l]. *)
Lemma chain_delete h l p n :
  chain h p n →
  chain (delete l h) p n ∨ ∃ m, (m ≤ n)%nat ∧ chain h l m.
Proof.
  induction 1 as [p o Hp Hnone | p o parent n Hp Hsome Hparent IH].
  - destruct (decide (l = p)) as [-> | Hne].
    + right. exists 1%nat. split; [lia|]. by eapply chain_end.
    + left. eapply chain_end; [|done]. by rewrite lookup_delete_ne.
  - destruct (decide (l = p)) as [-> | Hne].
    + right. exists (S n). split; [lia|]. by eapply chain_link.
    + destruct IH as [IH | (m & Hm & IH)].
      * left. eapply chain_link; [|done..]. by rewrite lookup_delete_ne.
      * right. exists m. split; [lia | done].
Qed.

(** The objects of a chain are distinct, so there are no more of them
    than the heap holds. *)
Lemma chain_bounded h l n : chain h l n → (n ≤ size h)%nat.
Proof.
  revert h l. induction n as [|n IH]; intros h l Hc; [lia|].
  pose proof (chain_allocated _ _ _ Hc) as Hl.
  pose proof (map_size_delete_Some l h Hl) as Hsize.
  pose proof (map_size_ne_0_lookup_2 h l Hl) as Hpos.
  inversion Hc as [l' o Ho Hp | l' o parent n' Ho Hp Hparent]; subst; [lia|].
  destruct (chain_delete h l parent n Hparent) as [Hd | (m & Hm & Hcycle)].
  - apply IH in Hd. lia.
  - pose proof (chain_deterministic _ _ _ _ Hc Hcycle). lia.
Qed.

Lemma ordinary_get_chain h l n k fuel :
  chain h l n → (n ≤ fuel)%nat → ordinary_get fuel h l k ≠ Stuck.
Proof.
  intros Hc. revert fuel.
  induction Hc as [l o Hl Hp | l o parent n Hl Hp _ IH]; intros fuel Hfuel;
    (destruct fuel as [|fuel]; [lia|]); cbn; rewrite Hl.
  - destruct (properties o !! k) as [[v|[[v|e]|]]|]; cbn; try done.
    by rewrite Hp.
  - destruct (properties o !! k) as [[v|[[v|e]|]]|]; cbn; try done.
    rewrite Hp. apply IH. lia.
Qed.

Lemma ordinary_has_chain h l n k fuel :
  chain h l n → (n ≤ fuel)%nat → ordinary_has fuel h l k ≠ Stuck.
Proof.
  intros Hc. revert fuel.
  induction Hc as [l o Hl Hp | l o parent n Hl Hp _ IH]; intros fuel Hfuel;
    (destruct fuel as [|fuel]; [lia|]); cbn; rewrite Hl.
  - destruct (properties o !! k); [done|]. by rewrite Hp.
  - destruct (properties o !! k); [done|]. rewrite Hp. apply IH. lia.
Qed.

(** More fuel does not change a result. *)
Lemma ordinary_get_more_fuel fuel fuel' h l k :
  ordinary_get fuel h l k ≠ Stuck → (fuel ≤ fuel')%nat →
  ordinary_get fuel' h l k = ordinary_get fuel h l k.
Proof.
  revert fuel' l. induction fuel as [|fuel IH]; intros fuel' l; cbn; [done|].
  intros Hns Hle. destruct fuel' as [|fuel']; [lia|]. cbn.
  destruct (h !! l) as [o|]; [|done].
  destruct (properties o !! k); [done|].
  destruct (prototype o); [|done].
  apply IH; [done | lia].
Qed.

(** Whatever fuel makes a read succeed, the size of the heap does too. *)
Lemma ordinary_get_fuel_enough fuel h l k r :
  (∃ n, chain h l n) →
  ordinary_get fuel h l k = r → r ≠ Stuck →
  ordinary_get (size h) h l k = r.
Proof.
  intros [n Hc] <- Hns.
  pose proof (chain_bounded _ _ _ Hc) as Hn.
  pose proof (ordinary_get_chain h l n k (size h) Hc Hn) as Hsize.
  destruct (Nat.le_ge_cases fuel (size h)).
  - by apply ordinary_get_more_fuel.
  - symmetry. by apply ordinary_get_more_fuel.
Qed.

Section WellFormed.

Variable s : store.
Hypothesis Hwf : wf_store s.

Lemma Get_total l k : is_Some (heap s !! l) → Get s l k ≠ Stuck.
Proof.
  intros Hl. destruct (wf_chain s Hwf l Hl) as [n Hc].
  eapply ordinary_get_chain; [exact Hc|]. exact (chain_bounded _ _ _ Hc).
Qed.

Lemma HasProperty_total l k : is_Some (heap s !! l) → HasProperty s l k ≠ Stuck.
Proof.
  intros Hl. destruct (wf_chain s Hwf l Hl) as [n Hc].
  eapply ordinary_has_chain; [exact Hc|]. exact (chain_bounded _ _ _ Hc).
Qed.

Lemma get_property_total base k :
  wf_value s base → get_property s base k ≠ Stuck.
Proof.
  destruct Hwf. destruct base; cbn; intros Hb; try done;
    try (by apply Get_total).
  destruct (string_own_property str k); [done | by apply Get_total].
Qed.

Lemma read_property_value p v :
  read_property p = Ret v → v = property_value p.
Proof. destruct p as [w|[[w|e]|]]; cbn; congruence. Qed.

Lemma ordinary_get_closed fuel l k v :
  ordinary_get fuel (heap s) l k = Ret v → wf_value s v.
Proof.
  revert l. induction fuel as [|fuel IH]; intros l; cbn; [done|].
  destruct (heap s !! l) as [o|] eqn:Hl; [|done].
  destruct (properties o !! k) as [p|] eqn:Hk.
  - intros ->%read_property_value. exact (wf_closed s Hwf l o k p Hl Hk).
  - destruct (prototype o); [apply IH|]. by intros [= <-].
Qed.

Lemma string_own_property_closed str k v :
  string_own_property str k = Some v → wf_value s v.
Proof.
  unfold string_own_property. destruct (String.eqb k "length").
  - by intros [= <-].
  - destruct (find _ _) as [i|]; [|done].
    destruct (String.get i str); [|done]. by intros [= <-].
Qed.

Lemma get_property_closed base k v :
  get_property s base k = Ret v → wf_value s v.
Proof.
  destruct base; cbn; try done; try apply ordinary_get_closed.
  destruct (string_own_property str k) eqn:Hown.
  - intros [= <-]. by eapply string_own_property_closed.
  - apply ordinary_get_closed.
Qed.

Lemma typeof_total v : wf_value s v → ∃ t, typeof s v = Ret t.
Proof.
  destruct v; cbn; eauto. intros [o ->]. eauto.
Qed.

End WellFormed.

(** The test [wf_storeb] is sound. *)
Lemma chain_ends_sound fuel h l :
  chain_ends fuel h l = true → ∃ n, chain h l n.
Proof.
  revert l. induction fuel as [|fuel IH]; intros l; cbn; [done|].
  destruct (h !! l) as [o|] eqn:Hl; [|done].
  destruct (prototype o) as [parent|] eqn:Hp.
  - intros [n Hn]%IH. exists (S n). by eapply chain_link.
  - intros _. exists 1%nat. by eapply chain_end.
Qed.

Lemma allocated_sound s l : allocated s l = true → is_Some (heap s !! l).
Proof. unfold allocated. destruct (heap s !! l); [eauto | done]. Qed.

Lemma wf_storeb_sound s : wf_storeb s = true → wf_store s.
Proof.
  unfold wf_storeb.
  intros (((((Hall & HS)%andb_prop & HN)%andb_prop & HB)%andb_prop
            & HI)%andb_prop & HY)%andb_prop.
  rewrite forallb_forall in Hall.
  split; try (by apply allocated_sound).
  - intros l [o Ho].
    assert (In (l, o) (map_to_list (heap s))) as Hin.
    { apply list_elem_of_In. by apply elem_of_map_to_list. }
    apply Hall in Hin as [Hc _]%andb_prop.
    by eapply chain_ends_sound.
  - intros l o k p Ho Hp.
    assert (In (l, o) (map_to_list (heap s))) as Hin.
    { apply list_elem_of_In. by apply elem_of_map_to_list. }
    apply Hall in Hin as [_ Hprops]%andb_prop.
    rewrite forallb_forall in Hprops.
    assert (In (k, p) (map_to_list (properties o))) as Hkp.
    { apply list_elem_of_In. by apply elem_of_map_to_list. }
    apply Hprops in Hkp. cbn in Hkp.
    destruct (property_value p); cbn in *; try done.
    by apply allocated_sound.
Qed.

Lemma sample_store_wf : wf_store Samples.w.
Proof. apply wf_storeb_sound. vm_compute. reflexivity. Qed.

(* ===================================================================== *)
(** ** The factory: what can throw *)
(* ===================================================================== *)

(** A read throws for one of two reasons. *)
Lemma ordinary_get_throws fuel h l k e :
  ordinary_get fuel h l k = Throw e →
  ∃ l' o x, h !! l' = Some o
            ∧ properties o !! k = Some (AccessorProperty (Some (Throws x)))
            ∧ e = Thrown x.
Proof.
  revert l. induction fuel as [|fuel IH]; intros l; cbn; [done|].
  destruct (h !! l) as [o|] eqn:Hl; [|done].
  destruct (properties o !! k) as [[v|[[v|x]|]]|] eqn:Hk; cbn; try done.
  - intros [= <-]. eauto 10.
  - destruct (prototype o); [apply IH | done].
Qed.

Lemma get_property_throws s base k e :
  get_property s base k = Throw e →
  (e = TypeError ∧ (base = VNull ∨ base = VUndefined))
  ∨ ∃ l o x, heap s !! l = Some o
             ∧ properties o !! k = Some (AccessorProperty (Some (Throws x)))
             ∧ e = Thrown x.
Proof.
  destruct base; cbn; try (intros [= <-]; by eauto);
    try (intros H; right; by eapply ordinary_get_throws).
  destruct (string_own_property str k); [done|].
  intros H; right; by eapply ordinary_get_throws.
Qed.

(** C7, as the code has it.  In a store an engine can produce the four
    operations always complete, and they throw only what the read of
    [input[field]] throws.  That read throws a TypeError on [null] and
    [undefined], which [is] and [getId] pass on while [isValid] and [parse]
    answer [false] and [null] before reading, as they do for every
    primitive and every function; and it throws what a getter named
    [field] on the input's prototype chain throws, which all four pass on.
    When the read completes, each operation returns its value. *)
Theorem operations_throw_only_what_the_read_throws
    (f : string) (s : store) (raw : value) :
  wf_store s → wf_value s raw →
  (typeof s raw ≠ Ret "object" ∨ raw = VNull →
     isValid (createDtoFactory f) s raw = Ret false
     ∧ parse (createDtoFactory f) s raw = Ret VNull)
  ∧ (∀ v, get_property s raw f = Ret v →
       (∃ b, isValid (createDtoFactory f) s raw = Ret b
             ∧ parse (createDtoFactory f) s raw = Ret (if b then raw else VNull))
       ∧ (∀ id, is_ (createDtoFactory f) s raw id = Ret (strict_equals v id))
       ∧ getId (createDtoFactory f) s raw = Ret v)
  ∧ (∀ e, get_property s raw f = Throw e →
       ((e = TypeError ∧ (raw = VNull ∨ raw = VUndefined))
        ∨ ∃ l o x, heap s !! l = Some o
                   ∧ properties o !! f = Some (AccessorProperty (Some (Throws x)))
                   ∧ e = Thrown x)
       ∧ (∀ id, is_ (createDtoFactory f) s raw id = Throw e)
       ∧ getId (createDtoFactory f) s raw = Throw e
       ∧ (raw ≠ VNull → typeof s raw = Ret "object" →
          isValid (createDtoFactory f) s raw = Throw e
          ∧ parse (createDtoFactory f) s raw = Throw e))
  ∧ get_property s raw f ≠ Stuck.
Proof.
  intros Hwf Hraw.
  assert (typeof s raw ≠ Ret "object" ∨ raw = VNull →
          isValid (createDtoFactory f) s raw = Ret false) as Hnot_object.
  { intros Hkind. rewrite isValid_unfold. destruct raw; try done.
    destruct Hkind as [Hkind | [=]].
    destruct (typeof_total s (VObject l) Hraw) as [t Ht].
    rewrite Ht in *.
    destruct (String.eqb t "object") eqn:Et; [|done].
    apply String.eqb_eq in Et as ->. done. }
  split; [|split; [|split]].
  - intros Hkind. rewrite parse_unfold. by rewrite (Hnot_object Hkind).
  - intros v Hget. split; [|split].
    + rewrite parse_unfold.
      destruct (typeof_total s v (get_property_closed s Hwf raw f v Hget))
        as [tv Htv].
      rewrite isValid_unfold. destruct raw; try (by exists false).
      destruct (typeof_total s (VObject l) Hraw) as [t ->].
      destruct (String.eqb t "object"); [|by exists false].
      rewrite Hget, Htv. eexists. split; [reflexivity|].
      by destruct (_ && _).
    + intros id. by rewrite is_unfold, Hget.
    + unfold_factory. done.
  - intros e Hget. split; [|split; [|split]].
    + by apply get_property_throws.
    + intros id. by rewrite is_unfold, Hget.
    + unfold_factory. done.
    + intros Hnull Ht. rewrite parse_unfold, isValid_unfold.
      apply typeof_object in Ht as [-> | (l & o & -> & Hl & Hc)]; [done|].
      cbn [typeof]. rewrite Hl, Hc. cbn [String.eqb Ascii.eqb Bool.eqb].
      by rewrite Hget.
  - by apply get_property_total.
Qed.

Lemma operations_throw_only_what_the_read_throws_witness :
  is_ (createDtoFactory "id") Samples.w (VObject 108) (VString "a")
    = Throw (Thrown (VString "boom"))
  ∧ isValid (createDtoFactory "id") Samples.w VNull = Ret false
  ∧ getId (createDtoFactory "id") Samples.w (VObject 109) = Ret (VString "a").
Proof.
  assert (wf_value Samples.w (VObject 108)) as H108 by (vm_compute; eauto).
  assert (wf_value Samples.w (VObject 109)) as H109 by (vm_compute; eauto).
  destruct (operations_throw_only_what_the_read_throws "id" Samples.w
              (VObject 108) sample_store_wf H108) as (_ & _ & Hthrow & _).
  destruct (operations_throw_only_what_the_read_throws "id" Samples.w
              VNull sample_store_wf I) as (Hnull & _).
  destruct (operations_throw_only_what_the_read_throws "id" Samples.w
              (VObject 109) sample_store_wf H109) as (_ & Hret & _).
  split; [|split].
  - destruct (Hthrow (Thrown (VString "boom"))) as (_ & His & _);
      [vm_compute; reflexivity | apply His].
  - apply Hnull. right. reflexivity.
  - destruct (Hret (VString "a")) as (_ & _ & Hid);
      [vm_compute; reflexivity | apply Hid].
Defined.

(** C7 as stated fails: [is] and [getId] throw on [null] and
    [undefined], and every operation throws when the discriminator is a
    getter that throws. *)
Lemma operations_can_throw :
  is_ (createDtoFactory "id") Samples.w VNull (VString "a") = Throw TypeError
  ∧ getId (createDtoFactory "id") Samples.w VUndefined = Throw TypeError
  ∧ isValid (createDtoFactory "id") Samples.w (VObject 108)
    = Throw (Thrown (VString "boom"))
  ∧ parse (createDtoFactory "id") Samples.w (VObject 108)
    = Throw (Thrown (VString "boom"))
  ∧ ¬ (∀ f s raw id, wf_store s → wf_value s raw →
         (∃ b, isValid (createDtoFactory f) s raw = Ret b)
         ∧ (∃ v, parse (createDtoFactory f) s raw = Ret v)
         ∧ (∃ b, is_ (createDtoFactory f) s raw id = Ret b)
         ∧ (∃ v, getId (createDtoFactory f) s raw = Ret v)).
Proof.
  split; [vm_compute; reflexivity|].
  split; [vm_compute; reflexivity|].
  split; [vm_compute; reflexivity|].
  split; [vm_compute; reflexivity|].
  intros H.
  destruct (H "id" Samples.w VNull (VString "a") sample_store_wf I)
    as (_ & _ & [b Hb] & _).
  vm_compute in Hb. discriminate.
Qed.

(* ===================================================================== *)
(** ** The empty field name *)
(* ===================================================================== *)

(** C8 as stated fails: the empty string names a property like any other
    string, and [{"": "a"}] is valid for the factory built with [""]. *)
Lemma empty_field_name_matches :
  isValid (createDtoFactory "") Samples.w (VObject 107) = Ret true
  ∧ parse (createDtoFactory "") Samples.w (VObject 107) = Ret (VObject 107)
  ∧ ¬ (∀ s raw, wf_store s → wf_value s raw →
         isValid (createDtoFactory "") s raw = Ret false
         ∧ parse (createDtoFactory "") s raw = Ret VNull).
Proof.
  split; [vm_compute; reflexivity|].
  split; [vm_compute; reflexivity|].
  intros H.
  assert (wf_value Samples.w (VObject 107)) as H107 by (vm_compute; eauto).
  destruct (H Samples.w (VObject 107) sample_store_wf H107) as [Hv _].
  vm_compute in Hv. discriminate.
Qed.

(** C8, as the code has it.  With the empty string as field name
    [isValid] is [false] and [parse] is [null] for every input that is
    not an object and for every object that has no property named by the
    empty string; an input is valid exactly when it is an object whose
    property named by the empty string reads as a non-empty string, and
    [parse] then returns it. *)
Theorem empty_field_name (s : store) (raw : value) :
  ((∀ l, raw ≠ VObject l) →
     isValid (createDtoFactory "") s raw = Ret false
     ∧ parse (createDtoFactory "") s raw = Ret VNull)
  ∧ (∀ l, raw = VObject l → HasProperty s l "" = Ret false →
     isValid (createDtoFactory "") s raw = Ret false
     ∧ parse (createDtoFactory "") s raw = Ret VNull)
  ∧ (isValid (createDtoFactory "") s raw = Ret true ↔
     raw ≠ VNull ∧ typeof s raw = Ret "object"
     ∧ ∃ str, get_property s raw "" = Ret (VString str) ∧ str ≠ "")
  ∧ (isValid (createDtoFactory "") s raw = Ret true →
     parse (createDtoFactory "") s raw = Ret raw).
Proof.
  split; [|split; [|split]].
  - intros Hprim.
    assert (isValid (createDtoFactory "") s raw = Ret false) as Hv.
    { rewrite isValid_unfold. destruct raw; try done. by destruct (Hprim l). }
    split; [done | by rewrite parse_unfold, Hv].
  - intros l -> Hhas.
    assert (isValid (createDtoFactory "") s (VObject l) = Ret false) as Hv.
    { apply isValid_false_non_string with VUndefined "undefined"; try done.
      by apply HasProperty_false_Get. }
    split; [done | by rewrite parse_unfold, Hv].
  - rewrite isValid_true_iff. split.
    + intros (Hnull & _ & Ht & str & Hget & Hlen).
      repeat split; try done. exists str. split; [done|].
      intros ->. cbn in Hlen. lia.
    + intros (Hnull & Ht & str & Hget & Hne).
      repeat split; try done.
      * intros ->. discriminate.
      * exists str. split; [done|]. destruct str; [done | cbn; lia].
  - intros Hv. by rewrite parse_unfold, Hv.
Qed.

Lemma empty_field_name_witness :
  (isValid (createDtoFactory "") Samples.w (VString "x") = Ret false
   ∧ parse (createDtoFactory "") Samples.w (VString "x") = Ret VNull)
  ∧ (isValid (createDtoFactory "") Samples.w (VObject 109) = Ret false
     ∧ parse (createDtoFactory "") Samples.w (VObject 109) = Ret VNull)
  ∧ parse (createDtoFactory "") Samples.w (VObject 107) = Ret (VObject 107).
Proof.
  destruct (empty_field_name Samples.w (VString "x")) as (Hprim & _).
  destruct (empty_field_name Samples.w (VObject 109)) as (_ & Hlacks & _).
  destruct (empty_field_name Samples.w (VObject 107)) as (_ & _ & _ & Hsame).
  split; [|split].
  - apply Hprim. discriminate.
  - apply (Hlacks 109%positive); [reflexivity | vm_compute; reflexivity].
  - apply Hsame. vm_compute. reflexivity.
Defined.

(* ===================================================================== *)
(** ** The dispatcher *)
(* ===================================================================== *)

(** C4.  When [dto[field]] reads as the string [v] and [handlers[v]] is
    the function [h], the dispatcher calls [h] once, with [dto] as its
    one argument, calls nothing else, and completes the way that call
    does: it returns what [h] returns. *)
Theorem dispatcher_calls_matching_handler
    (f : string) (s : store) (handlers dto : value) (v : string)
    (h : loc) (o : object) (body : list value → completion) :
  get_property s dto f = Ret (VString v) →
  get_property s handlers v = Ret (VObject h) →
  heap s !! h = Some o →
  call o = Some body →
  createDtoHandler f handlers s dto =
    ([Called h [dto]],
     match body [dto] with
     | Returns r => Ret r
     | Throws e => Throw (Thrown e)
     end)
  ∧ ∀ r, body [dto] = Returns r →
         createDtoHandler f handlers s dto = ([Called h [dto]], Ret r).
Proof.
  intros Hid Hhandler Ho Hcall.
  assert (createDtoHandler f handlers s dto =
          ([Called h [dto]],
           match body [dto] with
           | Returns r => Ret r
           | Throws e => Throw (Thrown e)
           end)) as Hrun.
  { unfold createDtoHandler, lift. rewrite Hid.
    cbn [to_property_key mbind result_bind traced_bind]. rewrite Hhandler.
    cbn [call_function]. rewrite Ho, Hcall. reflexivity. }
  split; [done|]. intros r Hr. by rewrite Hrun, Hr.
Qed.

Lemma dispatcher_calls_matching_handler_witness :
  createDtoHandler "id" (VObject Samples.the_handlers) Samples.w (VObject 109)
  = ([Called Samples.fn_a [VObject 109]], Ret (VString "from a")).
Proof.
  eapply (dispatcher_calls_matching_handler "id" Samples.w
            (VObject Samples.the_handlers) (VObject 109) "a" Samples.fn_a
            (Samples.function (λ _, Returns (VString "from a")))
            (λ _, Returns (VString "from a"))).
  - vm_compute. reflexivity.
  - vm_compute. reflexivity.
  - vm_compute. reflexivity.
  - reflexivity.
  - reflexivity.
Defined.

(** The other handler is never reached, and a discriminator without a
    handler is a TypeError at the call. *)
Example dispatcher_samples :
  createDtoHandler "id" (VObject Samples.the_handlers) Samples.w (VObject 109)
    = ([Called Samples.fn_a [VObject 109]], Ret (VString "from a"))
  ∧ createDtoHandler "id" (VObject Samples.the_handlers) Samples.w (VObject 112)
    = ([], Throw TypeError).
Proof. vm_compute. split; reflexivity. Qed.

(* ===================================================================== *)
(** ** The factory's operations together *)
(* ===================================================================== *)

(** X1.  [parse] hands out nothing of its own making, and is idempotent:
    what it returns is [null] or the input, parsing the result again
    returns it again, and the result is valid exactly when the input
    was. *)
Theorem parse_idempotent (f : string) (s : store) (raw v : value) :
  parse (createDtoFactory f) s raw = Ret v →
  (v = VNull ∨ v = raw)
  ∧ parse (createDtoFactory f) s v = Ret v
  ∧ isValid (createDtoFactory f) s v = isValid (createDtoFactory f) s raw.
Proof.
  intros Hp. pose proof Hp as Hp'. rewrite parse_unfold in Hp'.
  destruct (isValid (createDtoFactory f) s raw) as [[]| |] eqn:Hv;
    try discriminate; injection Hp' as <-.
  - split; [by right|]. split; [exact Hp | exact Hv].
  - split; [by left|]. split; reflexivity.
Qed.

Lemma parse_idempotent_witness :
  (VObject 109 = VNull ∨ VObject 109 = VObject 109)
  ∧ parse (createDtoFactory "id") Samples.w (VObject 109) = Ret (VObject 109)
  ∧ isValid (createDtoFactory "id") Samples.w (VObject 109)
    = isValid (createDtoFactory "id") Samples.w (VObject 109).
Proof.
  apply (parse_idempotent "id" Samples.w (VObject 109) (VObject 109)).
  vm_compute. reflexivity.
Defined.

(** X2.  What [parse] returns, when it is not [null], is a dto the other
    two operations work on: it is the input, an object, [getId] gives a
    non-empty string, [is] answers [true] for that string and [false] for
    every other one. *)
Theorem parsed_dto_is_usable (f : string) (s : store) (raw v : value) :
  parse (createDtoFactory f) s raw = Ret v → v ≠ VNull →
  v = raw
  ∧ typeof s v = Ret "object"
  ∧ ∃ str, str ≠ ""
      ∧ getId (createDtoFactory f) s v = Ret (VString str)
      ∧ is_ (createDtoFactory f) s v (VString str) = Ret true
      ∧ ∀ other, other ≠ str →
          is_ (createDtoFactory f) s v (VString other) = Ret false.
Proof.
  intros Hp Hnull. rewrite parse_unfold in Hp.
  destruct (isValid (createDtoFactory f) s raw) as [[]| |] eqn:Hv;
    try discriminate; injection Hp as <-; [|done].
  apply isValid_true_iff in Hv as (_ & _ & Ht & str & Hget & Hlen).
  split; [done|]. split; [done|]. exists str.
  split; [intros ->; cbn in Hlen; lia|].
  split; [unfold_factory; done|].
  split.
  - rewrite is_unfold, Hget. f_equal. by apply strict_equals_string.
  - intros other Hother. rewrite is_unfold, Hget. f_equal.
    cbn. by apply String.eqb_neq.
Qed.

Lemma parsed_dto_is_usable_witness :
  VObject 109 = VObject 109
  ∧ typeof Samples.w (VObject 109) = Ret "object"
  ∧ ∃ str, str ≠ ""
      ∧ getId (createDtoFactory "id") Samples.w (VObject 109) = Ret (VString str)
      ∧ is_ (createDtoFactory "id") Samples.w (VObject 109) (VString str) = Ret true
      ∧ ∀ other, other ≠ str →
          is_ (createDtoFactory "id") Samples.w (VObject 109) (VString other)
          = Ret false.
Proof.
  apply (parsed_dto_is_usable "id" Samples.w (VObject 109) (VObject 109)).
  - vm_compute. reflexivity.
  - discriminate.
Defined.

(** X3.  [is] and [getId] agree on every dto, valid or not: [is(dto, x)]
    is [true] for a string [x] exactly when [getId(dto)] is [x]; so a dto
    matches at most one string. *)
Theorem is_agrees_with_getId (f : string) (s : store) (dto : value) :
  (∀ x, is_ (createDtoFactory f) s dto (VString x) = Ret true ↔
        getId (createDtoFactory f) s dto = Ret (VString x))
  ∧ (∀ a b,
       is_ (createDtoFactory f) s dto (VString a) = Ret true →
       is_ (createDtoFactory f) s dto (VString b) = Ret true →
       a = b).
Proof.
  assert (∀ x, is_ (createDtoFactory f) s dto (VString x) = Ret true ↔
               getId (createDtoFactory f) s dto = Ret (VString x)) as Hiff.
  { intros x. rewrite is_unfold. unfold_factory.
    destruct (get_property s dto f) as [v| |]; [|split; discriminate..].
    split.
    - intros [= Heq]. destruct v; try discriminate.
      apply strict_equals_string in Heq as ->. done.
    - intros [= ->]. f_equal. by apply strict_equals_string. }
  split; [done|].
  intros a b Ha%Hiff Hb%Hiff. congruence.
Qed.

Lemma is_agrees_with_getId_witness :
  is_ (createDtoFactory "id") Samples.w (VObject 109) (VString "a") = Ret true
  ∧ "a" = "a".
Proof.
  destruct (is_agrees_with_getId "id" Samples.w (VObject 109)) as [Hiff Honly].
  split.
  - apply Hiff. vm_compute. reflexivity.
  - apply Honly; vm_compute; reflexivity.
Defined.

(** X4.  An object without the field, own or inherited, is invalid
    whatever else it holds: [isValid] is [false] and [parse] is [null].
    So a factory for one field rejects the objects shaped for another. *)
Theorem missing_field_is_invalid (f : string) (s : store) (l : loc) :
  HasProperty s l f = Ret false →
  isValid (createDtoFactory f) s (VObject l) = Ret false
  ∧ parse (createDtoFactory f) s (VObject l) = Ret VNull.
Proof.
  intros Hhas.
  assert (isValid (createDtoFactory f) s (VObject l) = Ret false) as Hv.
  { apply isValid_false_non_string with VUndefined "undefined"; try done.
    by apply HasProperty_false_Get. }
  split; [done | by rewrite parse_unfold, Hv].
Qed.

Lemma missing_field_is_invalid_witness :
  isValid (createDtoFactory "id") MoreSamples.w_inherited (VObject 202) = Ret false
  ∧ parse (createDtoFactory "id") MoreSamples.w_inherited (VObject 202) = Ret VNull.
Proof.
  apply (missing_field_is_invalid "id" MoreSamples.w_inherited 202).
  vm_compute. reflexivity.
Defined.

(** The object of that witness is valid for the field it was shaped for. *)
Example other_factory_accepts :
  parse (createDtoFactory "type") MoreSamples.w_inherited (VObject 202)
  = Ret (VObject 202).
Proof. vm_compute. reflexivity. Qed.

(* ===================================================================== *)
(** ** Only the discriminator is looked at *)
(* ===================================================================== *)

Lemma same_view_size f s s' : same_view f s s' → size (heap s) = size (heap s').
Proof.
  intros (_ & _ & _ & _ & _ & Hobj).
  rewrite <-!(size_dom (D:=gset positive)). f_equal.
  apply set_eq. intros l. rewrite !elem_of_dom.
  specialize (Hobj l).
  destruct (heap s !! l), (heap s' !! l); try done; split; eauto.
Qed.

Lemma same_view_ordinary_get f s s' fuel l :
  same_view f s s' →
  ordinary_get fuel (heap s) l f = ordinary_get fuel (heap s') l f.
Proof.
  intros (_ & _ & _ & _ & _ & Hobj).
  revert l. induction fuel as [|fuel IH]; intros l; cbn; [done|].
  specialize (Hobj l).
  destruct (heap s !! l) as [o|], (heap s' !! l) as [o'|]; try done.
  destruct Hobj as (-> & -> & _).
  destruct (properties o' !! f); [done|].
  destruct (prototype o'); [apply IH | done].
Qed.

Lemma same_view_get_property f s s' base :
  same_view f s s' → get_property s base f = get_property s' base f.
Proof.
  intros Hsame.
  assert (∀ l, Get s l f = Get s' l f) as HGet.
  { intros l. unfold Get. rewrite (same_view_size f s s' Hsame).
    by apply same_view_ordinary_get. }
  destruct Hsame as (HS & HN & HB & HI & HY & _).
  destruct base; cbn; try done; rewrite ?HS, ?HN, ?HB, ?HI, ?HY; try apply HGet.
  destruct (string_own_property str f); [done | apply HGet].
Qed.

Lemma same_view_typeof f s s' v :
  same_view f s s' → typeof s v = typeof s' v.
Proof.
  intros (_ & _ & _ & _ & _ & Hobj).
  destruct v; cbn; try done.
  specialize (Hobj l).
  destruct (heap s !! l) as [o|], (heap s' !! l) as [o'|]; try done.
  destruct Hobj as (_ & _ & Hcall).
  destruct (call o), (call o'); try done.
  - destruct Hcall as [Hc _]. by destruct Hc as [? [=]].
  - destruct Hcall as [_ Hc]. by destruct Hc as [? [=]].
Qed.

(** X5.  The four operations look at nothing but the discriminator: two
    stores that agree on the property [f] of every object, on the
    prototype links and on which objects are functions give the same
    [isValid], [parse], [is] and [getId], whatever the other properties
    of the objects hold. *)
Theorem operations_see_only_the_discriminator
    (f : string) (s s' : store) (raw : value) :
  same_view f s s' →
  isValid (createDtoFactory f) s raw = isValid (createDtoFactory f) s' raw
  ∧ parse (createDtoFactory f) s raw = parse (createDtoFactory f) s' raw
  ∧ (∀ id, is_ (createDtoFactory f) s raw id = is_ (createDtoFactory f) s' raw id)
  ∧ getId (createDtoFactory f) s raw = getId (createDtoFactory f) s' raw.
Proof.
  intros Hsame.
  pose proof (same_view_get_property f s s' raw Hsame) as Hget.
  assert (isValid (createDtoFactory f) s raw
          = isValid (createDtoFactory f) s' raw) as Hv.
  { rewrite !isValid_unfold, <-Hget, <-(same_view_typeof f s s' raw Hsame).
    destruct raw; try done.
    destruct (typeof s (VObject l)) as [t| |]; try done.
    destruct (String.eqb t "object"); [|done].
    destruct (get_property s (VObject l) f) as [v| |]; try done.
    by rewrite (same_view_typeof f s s' v Hsame). }
  split; [done|]. split; [|split].
  - by rewrite !parse_unfold, Hv.
  - intros id. by rewrite !is_unfold, Hget.
  - unfold_factory. done.
Qed.

Lemma same_viewb_sound f s s' : same_viewb f s s' = true → same_view f s s'.
Proof.
  unfold same_viewb.
  intros (((((HS & HN)%andb_prop & HB)%andb_prop & HI)%andb_prop
            & HY)%andb_prop & Hall)%andb_prop.
  repeat (split; [by eapply bool_decide_eq_true_1|]).
  rewrite forallb_forall in Hall. intros l.
  destruct (heap s !! l) as [o|] eqn:Ho.
  - assert (In l ((map_to_list (heap s)).*1 ++ (map_to_list (heap s')).*1))
      as Hin.
    { apply in_or_app. left. apply list_elem_of_In, list_elem_of_fmap.
      exists (l, o). split; [done | by apply elem_of_map_to_list]. }
    apply Hall in Hin. rewrite Ho in Hin.
    destruct (heap s' !! l) as [o'|]; [|done].
    apply andb_prop in Hin as [[Hf Hp]%andb_prop Hc].
    apply bool_decide_eq_true_1 in Hp.
    split; [|split; [done|]].
    + destruct (properties o !! f) as [[[]|]|], (properties o' !! f) as [[[]|]|];
        try done.
      apply String.eqb_eq in Hf as ->. done.
    + destruct (call o), (call o'); try done; split; eauto.
  - destruct (heap s' !! l) as [o'|] eqn:Ho'; [|done].
    assert (In l ((map_to_list (heap s)).*1 ++ (map_to_list (heap s')).*1))
      as Hin.
    { apply in_or_app. right. apply list_elem_of_In, list_elem_of_fmap.
      exists (l, o'). split; [done | by apply elem_of_map_to_list]. }
    apply Hall in Hin. by rewrite Ho in Hin.
Qed.

Lemma operations_see_only_the_discriminator_witness :
  parse (createDtoFactory "id") MoreSamples.w_before (VObject 300)
  = parse (createDtoFactory "id") MoreSamples.w_after (VObject 300).
Proof.
  apply (operations_see_only_the_discriminator "id" MoreSamples.w_before
           MoreSamples.w_after (VObject 300)).
  apply same_viewb_sound. vm_compute. reflexivity.
Defined.

(* ===================================================================== *)
(** ** The dispatcher: what it calls and when it fails *)
(* ===================================================================== *)

Lemma createDtoHandler_unfold f handlers s dto :
  createDtoHandler f handlers s dto =
  match get_property s dto f with
  | Ret id =>
      match to_property_key id with
      | Ret key =>
          match get_property s handlers key with
          | Ret handler => call_function s handler [dto]
          | Throw e => ([], Throw e)
          | Stuck => ([], Stuck)
          end
      | Throw e => ([], Throw e)
      | Stuck => ([], Stuck)
      end
  | Throw e => ([], Throw e)
  | Stuck => ([], Stuck)
  end.
Proof.
  unfold createDtoHandler, lift. cbn [mbind traced_bind].
  destruct (get_property s dto f) as [id| |]; try reflexivity.
  destruct (to_property_key id) as [key| |]; try reflexivity.
  cbn [mbind result_bind].
  destruct (get_property s handlers key) as [handler| |]; try reflexivity.
  by destruct (call_function s handler [dto]).
Qed.




(** X7.  The dispatcher checks nothing before the call: it throws a
    TypeError, having called nothing, when the dto is [null] or
    [undefined] and when the handler map holds no function under the
    discriminator, in particular when it has no such key. *)
Theorem dispatcher_type_errors
    (f : string) (handlers : value) (s : store) (dto : value) :
  (dto = VNull ∨ dto = VUndefined →
     createDtoHandler f handlers s dto = ([], Throw TypeError))
  ∧ (∀ id key x,
       get_property s dto f = Ret id →
       to_property_key id = Ret key →
       get_property s handlers key = Ret x →
       ((∀ l, x ≠ VObject l)
        ∨ ∃ l o, x = VObject l ∧ heap s !! l = Some o ∧ call o = None) →
       createDtoHandler f handlers s dto = ([], Throw TypeError))
  ∧ (∀ v hl,
       get_property s dto f = Ret (VString v) →
       handlers = VObject hl →
       HasProperty s hl v = Ret false →
       createDtoHandler f handlers s dto = ([], Throw TypeError)).
Proof.
  assert (∀ id key x,
       get_property s dto f = Ret id →
       to_property_key id = Ret key →
       get_property s handlers key = Ret x →
       ((∀ l, x ≠ VObject l)
        ∨ ∃ l o, x = VObject l ∧ heap s !! l = Some o ∧ call o = None) →
       createDtoHandler f handlers s dto = ([], Throw TypeError)) as Hnot.
  { intros id key x Hid Hkey Hx Hnc.
    rewrite createDtoHandler_unfold, Hid, Hkey, Hx.
    destruct Hnc as [Hprim | (l & o & -> & Ho & Hc)].
    - destruct x; try reflexivity. by destruct (Hprim l).
    - cbn. by rewrite Ho, Hc. }
  split; [|split; [exact Hnot|]].
  - intros [-> | ->]; by rewrite createDtoHandler_unfold.
  - intros v hl Hid -> Hhas.
    apply (Hnot (VString v) v VUndefined); try done.
    + by apply HasProperty_false_Get.
    + left. discriminate.
Qed.

Lemma dispatcher_type_errors_witness :
  createDtoHandler "id" (VObject Samples.the_handlers) Samples.w (VObject 112)
  = ([], Throw TypeError).
Proof.
  destruct (dispatcher_type_errors "id" (VObject Samples.the_handlers)
              Samples.w (VObject 112)) as (_ & _ & Hmissing).
  apply (Hmissing "no_such_schema" Samples.the_handlers).
  - vm_compute. reflexivity.
  - reflexivity.
  - vm_compute. reflexivity.
Defined.

(** A property an object does not own is read from its prototype. *)
Lemma Get_inherited s l o parent k :
  wf_store s →
  heap s !! l = Some o → properties o !! k = None →
  prototype o = Some parent →
  Get s l k = Get s parent k.
Proof.
  intros Hwf Ho Hk Hp.
  destruct (wf_chain s Hwf l) as [n Hc]; [by eauto|].
  pose proof (chain_bounded _ _ _ Hc) as Hn.
  inversion Hc as [l' o' Ho' Hp' | l' o' parent' n' Ho' Hp' Hparent];
    simplify_eq.
  unfold Get. destruct (size (heap s)) as [|fuel] eqn:Hsize; [lia|].
  rewrite (ordinary_get_more_fuel fuel (S fuel) (heap s) parent k);
    [|eapply ordinary_get_chain; [exact Hparent | lia] | lia].
  cbn [ordinary_get]. by rewrite Ho, Hk, Hp.
Qed.

(** X8.  The handler is looked up like any property, on the prototype
    chain too: when the handler map has no key of its own for the
    discriminator but its prototype holds a function under that name, the
    dispatcher calls that function with the dto. *)
Theorem dispatcher_calls_inherited_function
    (f : string) (s : store) (dto : value) (v : string)
    (hl parent h : loc) (ho o : object) (body : list value → completion) :
  wf_store s →
  get_property s dto f = Ret (VString v) →
  heap s !! hl = Some ho →
  properties ho !! v = None →
  prototype ho = Some parent →
  get_property s (VObject parent) v = Ret (VObject h) →
  heap s !! h = Some o →
  call o = Some body →
  createDtoHandler f (VObject hl) s dto =
    ([Called h [dto]],
     match body [dto] with
     | Returns r => Ret r
     | Throws e => Throw (Thrown e)
     end).
Proof.
  intros Hwf Hid Hho Hown Hproto Hparent Ho Hc.
  rewrite createDtoHandler_unfold, Hid. cbn [to_property_key get_property].
  rewrite (Get_inherited s hl ho parent v Hwf Hho Hown Hproto).
  cbn [get_property] in Hparent. rewrite Hparent.
  cbn [call_function]. by rewrite Ho, Hc.
Qed.

Lemma dispatcher_calls_inherited_function_witness :
  createDtoHandler "id" (VObject Samples.the_handlers) MoreSamples.w_inherited
    (VObject 200)
  = ([Called Samples.Object_toString [VObject 200]],
     Ret (VString "[object Object]")).
Proof.
  eapply (dispatcher_calls_inherited_function "id" MoreSamples.w_inherited
            (VObject 200) "toString" Samples.the_handlers
            Samples.Object_prototype Samples.Object_toString
            (Samples.record [("a", VObject Samples.fn_a)])
            (Samples.function (λ _, Returns (VString "[object Object]")))
            (λ _, Returns (VString "[object Object]"))).
  - apply wf_storeb_sound. vm_compute. reflexivity.
  - vm_compute. reflexivity.
  - vm_compute. reflexivity.
  - vm_compute. reflexivity.
  - reflexivity.
  - vm_compute. reflexivity.
  - vm_compute. reflexivity.
  - reflexivity.
Defined.

(* ===================================================================== *)
(** ** The derived types: which schemas take part *)
(* ===================================================================== *)

Import Types.

Lemma literal_only_iff (u : ty) :
  extends_string u = true ∧ string_extends u = false ↔
  Forall (λ a, ∃ v, a = ALiteral v) u.
Proof.
  induction u as [|a u IH].
  - split; [constructor | done].
  - rewrite Forall_cons. unfold extends_string, string_extends in *.
    destruct a; cbn [forallb existsb andb orb].
    + split; [intros [_ [=]] | intros [[v [=]] _]].
    + split.
      * intros H. split; [eauto | by apply IH].
      * intros [_ H]. by apply IH.
    + split; [intros [[=] _] | intros [[v [=]] _]].
    + split; [intros [[=] _] | intros [[v [=]] _]].
    + split; [intros [[=] _] | intros [[v [=]] _]].
    + split; [intros [[=] _] | intros [[v [=]] _]].
    + split; [intros [[=] _] | intros [[v [=]] _]].
Qed.

Lemma HasLiteralField_Some T Field T' :
  HasLiteralField T Field = Some T' ↔
  T' = T ∧ ∃ u, T !! Field = Some u ∧ Forall (λ a, ∃ v, a = ALiteral v) u.
Proof.
  unfold HasLiteralField. destruct (T !! Field) as [u|]; [|split; [done | by intros (_ & ? & [=] & _)]].
  split.
  - destruct (extends_string u) eqn:He; [|done].
    destruct (string_extends u) eqn:Hs; [done|].
    intros [= <-]. split; [done|]. exists u. split; [done|].
    by apply literal_only_iff.
  - intros (-> & u' & [= <-] & [-> ->]%literal_only_iff). done.
Qed.

Lemma elem_of_literals u v : v ∈ literals u ↔ ALiteral v ∈ u.
Proof.
  unfold literals. rewrite list_elem_of_omap. split.
  - intros (a & Ha & Hv). destruct a; try done. by injection Hv as ->.
  - intros Hv. by exists (ALiteral v).
Qed.

Lemma ExtractFieldValue_literal_only T Field u :
  T !! Field = Some u → Forall (λ a, ∃ v, a = ALiteral v) u →
  ExtractFieldValue T Field = u.
Proof.
  intros Hu [He _]%literal_only_iff. unfold ExtractFieldValue. by rewrite Hu, He.
Qed.

Lemma DiscriminatedKey_iff Schemas Field K :
  K ∈ DiscriminatedKey Schemas Field ↔
  ∃ T u, Schemas !! K = Some T ∧ T !! Field = Some u
         ∧ Forall (λ a, ∃ v, a = ALiteral v) u.
Proof.
  unfold DiscriminatedKey. rewrite list_elem_of_omap. split.
  - intros ([K' T] & Hin%elem_of_map_to_list & Hsel). cbn in Hsel.
    destruct (HasLiteralField T Field) as [T'|] eqn:Hhas; [|done].
    injection Hsel as ->.
    apply HasLiteralField_Some in Hhas as (_ & u & Hu & Hlit). eauto.
  - intros (T & u & HT & Hu & Hlit). exists (K, T).
    split; [by apply elem_of_map_to_list|]. cbn.
    assert (HasLiteralField T Field = Some T) as ->; [|done].
    apply HasLiteralField_Some. eauto.
Qed.

(** X9.  A schema takes part in the derivation exactly when it declares
    the field with a type made of string literals only.  A schema without
    the field, with the field typed [string], with a field that is not a
    string (a number, a boolean, an object) or with an optional field is
    left out. *)
Theorem DiscriminatedKey_spec (Schemas : schemas) (Field K : string) :
  (K ∈ DiscriminatedKey Schemas Field ↔
     ∃ T u, Schemas !! K = Some T ∧ T !! Field = Some u
            ∧ Forall (λ a, ∃ v, a = ALiteral v) u)
  ∧ (∀ T, Schemas !! K = Some T → T !! Field = None →
       K ∉ DiscriminatedKey Schemas Field)
  ∧ (∀ T u a, Schemas !! K = Some T → T !! Field = Some u → a ∈ u →
       (∀ v, a ≠ ALiteral v) → K ∉ DiscriminatedKey Schemas Field).
Proof.
  split; [apply DiscriminatedKey_iff|]. split.
  - intros T HT Hnone (T' & u & HT' & Hu & _)%DiscriminatedKey_iff.
    congruence.
  - intros T u a HT Hu Ha Hnot (T' & u' & HT' & Hu' & Hlit)%DiscriminatedKey_iff.
    simplify_eq. rewrite Forall_forall in Hlit.
    destruct (Hlit a Ha) as [v ->]. by destruct (Hnot v).
Qed.

Lemma DiscriminatedKey_spec_witness :
  ("GenericString" ∉ DiscriminatedKey TestSchemas "id")
  ∧ ("NoDiscriminator" ∉ DiscriminatedKey TestSchemas "id").
Proof.
  destruct (DiscriminatedKey_spec TestSchemas "id" "GenericString")
    as (_ & _ & Hgeneric).
  destruct (DiscriminatedKey_spec TestSchemas "id" "NoDiscriminator")
    as (_ & Hmissing & _).
  split.
  - eapply (Hgeneric _ [AString] AString).
    + vm_compute. reflexivity.
    + vm_compute. reflexivity.
    + apply list_elem_of_singleton. reflexivity.
    + discriminate.
  - eapply Hmissing.
    + vm_compute. reflexivity.
    + vm_compute. reflexivity.
Defined.

(* ===================================================================== *)
(** ** The derived types: the map from values to schemas *)
(* ===================================================================== *)

Lemma SafeIndex_add_member v T m w T' :
  T' ∈ SafeIndex (add_member v T m) w ↔
  (w = v ∧ T' = T) ∨ T' ∈ SafeIndex m w.
Proof.
  unfold SafeIndex, add_member.
  destruct (decide (v = w)) as [-> | Hne].
  - rewrite lookup_insert_eq. rewrite elem_of_cons.
    destruct (m !! w); cbn; split.
    + intros [-> | H]; [by left | by right].
    + intros [[_ ->] | H]; [by left | by right].
    + intros [-> | H]; [by left | by right].
    + intros [[_ ->] | H]; [by left | by right].
  - rewrite lookup_insert_ne by done. split.
    + intros H. by right.
    + intros [[-> _] | H]; done.
Qed.

Lemma SafeIndex_add_members T vs m w T' :
  T' ∈ SafeIndex (foldr (λ v m', add_member v T m') m vs) w ↔
  (w ∈ vs ∧ T' = T) ∨ T' ∈ SafeIndex m w.
Proof.
  induction vs as [|v vs IH]; cbn [foldr].
  - split; [by right | intros [[[]%elem_of_nil _] | ?]; done].
  - rewrite SafeIndex_add_member, IH, elem_of_cons. split.
    + intros [[-> ->] | [[Hw ->] | H]].
      * left. split; [by left | done].
      * left. split; [by right | done].
      * by right.
    + intros [[[-> | Hw] ->] | H].
      * by left.
      * right. left. by split.
      * right. by right.
Qed.

Lemma SafeIndex_build (Schemas : schemas) Field keys w T' :
  T' ∈ SafeIndex
         (foldr (λ K m,
              match Schemas !! K with
              | Some T =>
                  foldr (λ v m', add_member v T m') m
                    (literals (ExtractFieldValue T Field))
              | None => m
              end) ∅ keys) w ↔
  ∃ K, K ∈ keys ∧ Schemas !! K = Some T'
       ∧ w ∈ literals (ExtractFieldValue T' Field).
Proof.
  induction keys as [|K keys IH]; cbn [foldr].
  - unfold SafeIndex. rewrite lookup_empty. split.
    + by intros ?%elem_of_nil.
    + by intros (K & ?%elem_of_nil & _).
  - destruct (Schemas !! K) as [T|] eqn:HK.
    + rewrite SafeIndex_add_members, IH. split.
      * intros [[Hw ->] | (K' & HK' & HT' & Hw)].
        -- exists K. split; [apply elem_of_cons; by left | by split].
        -- exists K'. split; [apply elem_of_cons; by right | by split].
      * intros (K' & [-> | HK']%elem_of_cons & HT' & Hw).
        -- left. assert (T' = T) as -> by congruence. by split.
        -- right. exists K'. by repeat split.
    + rewrite IH. split.
      * intros (K' & HK' & HT' & Hw). exists K'.
        split; [apply elem_of_cons; by right | by split].
      * intros (K' & [-> | HK']%elem_of_cons & HT' & Hw); [congruence|].
        exists K'. by repeat split.
Qed.

Lemma DiscriminatorMap_iff Schemas Field v T :
  T ∈ SafeIndex (DiscriminatorMap Schemas Field) v ↔
  ∃ K u, Schemas !! K = Some T ∧ T !! Field = Some u
         ∧ Forall (λ a, ∃ w, a = ALiteral w) u ∧ ALiteral v ∈ u.
Proof.
  unfold DiscriminatorMap. rewrite SafeIndex_build. split.
  - intros (K & (T' & u & HT' & Hu & Hlit)%DiscriminatedKey_iff & HT & Hv).
    assert (T' = T) as -> by congruence.
    rewrite (ExtractFieldValue_literal_only T Field u) in Hv by done.
    apply elem_of_literals in Hv. exists K, u. by repeat split.
  - intros (K & u & HT & Hu & Hlit & Hv). exists K.
    split; [apply DiscriminatedKey_iff; eauto|]. split; [done|].
    rewrite (ExtractFieldValue_literal_only T Field u) by done.
    by apply elem_of_literals.
Qed.

(** No property of the map is of type [never]. *)
Lemma add_member_nonempty v T m :
  (∀ w l, m !! w = Some l → l ≠ []) →
  ∀ w l, add_member v T m !! w = Some l → l ≠ [].
Proof.
  intros Hm w l. unfold add_member.
  destruct (decide (v = w)) as [-> | Hne].
  - rewrite lookup_insert_eq. by intros [= <-].
  - rewrite lookup_insert_ne by done. apply Hm.
Qed.

Lemma DiscriminatorMap_nonempty Schemas Field w l :
  DiscriminatorMap Schemas Field !! w = Some l → l ≠ [].
Proof.
  unfold DiscriminatorMap. revert w l.
  induction (DiscriminatedKey Schemas Field) as [|K keys IH]; cbn [foldr].
  - intros w l. by rewrite lookup_empty.
  - destruct (Schemas !! K) as [T|]; [|done].
    induction (literals (ExtractFieldValue T Field)) as [|v vs IHv];
      cbn [foldr]; [done|].
    by apply add_member_nonempty.
Qed.

Lemma DiscriminatorId_iff Schemas Field v :
  v ∈ DiscriminatorId Schemas Field ↔
  ∃ T, T ∈ SafeIndex (DiscriminatorMap Schemas Field) v.
Proof.
  unfold DiscriminatorId, SafeIndex. rewrite elem_of_dom. split.
  - intros [l Hl]. rewrite Hl.
    destruct l as [|T l]; [by apply DiscriminatorMap_nonempty in Hl|].
    exists T. apply elem_of_cons. by left.
  - intros [T HT]. destruct (DiscriminatorMap Schemas Field !! v); [eauto|].
    by apply elem_of_nil in HT.
Qed.

(** X10.  The map's keys are the literal values of the schemas that take
    part, and under a value the map holds every schema that declares it:
    a schema is under [v] exactly when [v] is one of the literals of its
    field.  Schemas that share a value share the property. *)
Theorem DiscriminatorMap_spec (Schemas : schemas) (Field v : string) :
  (∀ T, T ∈ SafeIndex (DiscriminatorMap Schemas Field) v ↔
        ∃ K u, Schemas !! K = Some T ∧ T !! Field = Some u
               ∧ Forall (λ a, ∃ w, a = ALiteral w) u ∧ ALiteral v ∈ u)
  ∧ (v ∈ DiscriminatorId Schemas Field ↔
     ∃ K T u, Schemas !! K = Some T ∧ T !! Field = Some u
              ∧ Forall (λ a, ∃ w, a = ALiteral w) u ∧ ALiteral v ∈ u).
Proof.
  split; [intros T; apply DiscriminatorMap_iff|].
  rewrite DiscriminatorId_iff. split.
  - intros (T & (K & u & H)%DiscriminatorMap_iff). eauto.
  - intros (K & T & u & H). exists T. apply DiscriminatorMap_iff. eauto.
Qed.

(** On the tests' schema set: the four values of [id], the two of
    [type], as the tests expect. *)
Example DiscriminatorId_TestSchemas :
  DiscriminatorId TestSchemas "id"
    = list_to_set ["message_a"; "message_b"; "message_c"; "dual"]
  ∧ DiscriminatorId TestSchemas "type"
    = list_to_set ["typed_msg"; "also_typed"].
Proof. split; vm_compute; reflexivity. Qed.

Lemma elem_of_ValueOf m T : T ∈ ValueOf m ↔ ∃ v, T ∈ SafeIndex m v.
Proof.
  unfold ValueOf, SafeIndex. rewrite list_elem_of_join. split.
  - intros (l & HT & ([v l'] & -> & Hin%elem_of_map_to_list)%list_elem_of_fmap).
    exists v. cbn in *. by rewrite Hin.
  - intros [v HT]. destruct (m !! v) as [l|] eqn:Hl; [|by apply elem_of_nil in HT].
    exists l. split; [done|]. apply list_elem_of_fmap. exists (v, l).
    split; [done | by apply elem_of_map_to_list].
Qed.

(** X11.  [AnyDto] is the union of the schemas that declare the field
    with at least one string literal and nothing but string literals. *)
Theorem AnyDto_spec (Schemas : schemas) (Field : string) (T : shape) :
  T ∈ AnyDto Schemas Field ↔
  ∃ K u, Schemas !! K = Some T ∧ T !! Field = Some u
         ∧ Forall (λ a, ∃ w, a = ALiteral w) u ∧ u ≠ [].
Proof.
  unfold AnyDto. rewrite elem_of_ValueOf. split.
  - intros (v & (K & u & HT & Hu & Hlit & Hv)%DiscriminatorMap_iff).
    exists K, u. repeat split; try done. intros ->. by apply elem_of_nil in Hv.
  - intros (K & u & HT & Hu & Hlit & Hne).
    destruct u as [|a u]; [done|].
    pose proof (Forall_inv Hlit) as [v ->].
    exists v. apply DiscriminatorMap_iff. exists K, (ALiteral v :: u).
    repeat split; try done. apply elem_of_cons. by left.
Qed.

(* ===================================================================== *)
(** ** Exhaustive handlers *)
(* ===================================================================== *)

(** X12.  What the type [DtoHandlers] buys at run time: when the handler
    map holds a function under every value of [DiscriminatorId], a dto
    whose discriminator is one of the literals a participating schema
    declares is dispatched to the function under that value, called once,
    and the dispatcher raises no TypeError of its own. *)
Theorem exhaustive_handlers_dispatch
    (Schemas : schemas) (Field : string) (s : store) (handlers dto : value)
    (K : string) (T : shape) (u : ty) (v : string) :
  is_DtoHandlers s handlers Schemas Field →
  Schemas !! K = Some T →
  T !! Field = Some u →
  Forall (λ a, ∃ w, a = ALiteral w) u →
  ALiteral v ∈ u →
  get_property s dto Field = Ret (VString v) →
  ∃ h o body,
    get_property s handlers v = Ret (VObject h)
    ∧ heap s !! h = Some o
    ∧ call o = Some body
    ∧ createDtoHandler Field handlers s dto =
        ([Called h [dto]],
         match body [dto] with
         | Returns r => Ret r
         | Throws e => Throw (Thrown e)
         end).
Proof.
  intros Hhandlers HT Hu Hlit Hv Hid.
  destruct (Hhandlers v) as (h & o & body & Hh & Ho & Hc).
  { apply DiscriminatorId_iff. exists T. apply DiscriminatorMap_iff.
    exists K, u. by repeat split. }
  exists h, o, body. repeat split; try done.
  rewrite createDtoHandler_unfold, Hid. cbn [to_property_key].
  rewrite Hh. cbn [call_function]. by rewrite Ho, Hc.
Qed.

Lemma test_handlers_are_exhaustive :
  is_DtoHandlers MoreSamples.w_messages (VObject 420) TestSchemas "id".
Proof.
  intros K HK. apply elem_of_elements in HK.
  assert (elements (DiscriminatorId TestSchemas "id")
          = ["message_c"; "message_a"; "message_b"; "dual"]) as Hel
    by (vm_compute; reflexivity).
  rewrite Hel in HK. clear Hel.
  repeat (apply elem_of_cons in HK as [-> | HK]).
  5: by apply elem_of_nil in HK.
  all: eexists _, _, _.
  all: (split; [vm_compute; reflexivity|]).
  all: (split; [vm_compute; reflexivity | reflexivity]).
Qed.

Lemma exhaustive_handlers_dispatch_witness :
  ∃ h o body,
    get_property MoreSamples.w_messages (VObject 420) "message_b" = Ret (VObject h)
    ∧ heap MoreSamples.w_messages !! h = Some o
    ∧ call o = Some body
    ∧ createDtoHandler "id" (VObject 420) MoreSamples.w_messages (VObject 400) =
        ([Called h [VObject 400]],
         match body [VObject 400] with
         | Returns r => Ret r
         | Throws e => Throw (Thrown e)
         end).
Proof.
  eapply (exhaustive_handlers_dispatch TestSchemas "id" MoreSamples.w_messages
            (VObject 420) (VObject 400) "MessageB" _ [ALiteral "message_b"]
            "message_b").
  - exact test_handlers_are_exhaustive.
  - vm_compute. reflexivity.
  - vm_compute. reflexivity.
  - repeat constructor. by exists "message_b".
  - apply list_elem_of_singleton. reflexivity.
  - vm_compute. reflexivity.
Defined.
